(** * Workspace Launcher (Launcher/native/launcher.c): update check and hand-off

    A shallow embedding of the launcher's C code.  Character arrays that hold
    NUL-terminated text are represented by the C string they hold (the
    characters before the first NUL); a pointer into such an array is
    represented by the C string it points to, i.e. a suffix of the array's
    string.  Calls to the operating system are answered by a [World] record,
    and the program's observable actions are collected in a chronological
    list of [Event]s. *)

From Stdlib Require Import ZArith Lia List Bool Ascii String.
Import ListNotations.
Open Scope string_scope.

(** ** Characters and constants of the source *)

Definition NUL : ascii := "000"%char.
Definition LF : ascii := "010"%char.
Definition CR : ascii := "013"%char.
Definition DQUOTE : ascii := "034"%char.
Definition BACKSLASH : ascii := "092"%char.

Definition APP_NAME : string := "Workspace".
Definition MAIN_EXE : string := "workspace.exe".
Definition VERSION_FILE : string := "version.txt".
Definition GITHUB_REPO : string := "wmtogether/chats".
Definition BUFFER_SIZE : Z := 8192.
Definition MAX_PATH_LEN : nat := 512.

(** [sizeof] of the three arrays of [ReleaseInfo]. *)
Definition VERSION_SIZE : nat := 32.
Definition DOWNLOAD_URL_SIZE : nat := 512.
Definition FILENAME_SIZE : nat := 128.

Record ReleaseInfo := mkRelease {
  version : string;
  download_url : string;
  filename : string
}.

(** [ReleaseInfo release = {0}] *)
Definition release_zero : ReleaseInfo := mkRelease EmptyString EmptyString EmptyString.

(** ** Results of the secure CRT

    [strcpy_s] and [sprintf_s] call the invalid-parameter handler when the
    destination is too small; the default handler ends the process.  The
    model keeps that outcome apart from a normal return.  [OutOfFuel] is
    the model's own: it is returned by a loop whose step budget ran out and
    is shown never to happen for the budget the model uses. *)

Inductive res (A : Type) : Type :=
| Ret (a : A)
| InvalidParameter
| OutOfFuel.
Arguments Ret {A} a.
Arguments InvalidParameter {A}.
Arguments OutOfFuel {A}.

Definition res_bind {A B} (m : res A) (f : A -> res B) : res B :=
  match m with
  | Ret a => f a
  | InvalidParameter => InvalidParameter
  | OutOfFuel => OutOfFuel
  end.

(** ** The C string functions the launcher calls *)

Module CString.

(** The text a char array holds: everything before the first NUL. *)
Fixpoint cstr (s : string) : string :=
  match s with
  | EmptyString => EmptyString
  | String c s' => if Ascii.eqb c NUL then EmptyString else String c (cstr s')
  end.

Definition strlen (s : string) : nat := String.length s.

(** [p + 1] for a pointer [p] into a string. *)
Definition ptr_inc (s : string) : string :=
  match s with
  | EmptyString => EmptyString
  | String _ s' => s'
  end.

(** [end - start] for two pointers into the same string, [end] at or after
    [start]. *)
Definition ptr_diff (end_ start : string) : nat := String.length start - String.length end_.

(** [s[0]]; the terminator when [s] is empty. *)
Definition char0 (s : string) : ascii :=
  match s with
  | EmptyString => NUL
  | String c _ => c
  end.

Fixpoint strchr (s : string) (c : ascii) : option string :=
  match s with
  | EmptyString => None
  | String a s' => if Ascii.eqb a c then Some s else strchr s' c
  end.

Fixpoint strrchr (s : string) (c : ascii) : option string :=
  match s with
  | EmptyString => None
  | String a s' =>
      match strrchr s' c with
      | Some r => Some r
      | None => if Ascii.eqb a c then Some s else None
      end
  end.

Fixpoint strstr (s k : string) : option string :=
  if String.prefix k s then Some s
  else match s with
       | EmptyString => None
       | String _ s' => strstr s' k
       end.

(** [strcmp]: sign of the first difference, bytes compared as unsigned. *)
Fixpoint strcmp (a b : string) : Z :=
  match a, b with
  | EmptyString, EmptyString => 0
  | EmptyString, String _ _ => -1
  | String _ _, EmptyString => 1
  | String c a', String d b' =>
      if Ascii.eqb c d then strcmp a' b'
      else if (N_of_ascii c <? N_of_ascii d)%N then -1 else 1
  end.

(** The first [n] characters of [s]. *)
Fixpoint take (n : nat) (s : string) : string :=
  match n, s with
  | S n', String c s' => String c (take n' s')
  | _, _ => EmptyString
  end.

(** [strcpy_s(dest, size, src)]: the new contents of [dest]. *)
Definition strcpy_s (size : nat) (src : string) : res string :=
  if Nat.ltb (String.length src) size then Ret src else InvalidParameter.

(** [strncpy_s(dest, size, src, count)]: copies [count] characters of [src]
    (fewer when [src] ends earlier) and a terminator. *)
Definition strncpy_s (size : nat) (src : string) (count : nat) : res string :=
  let copied := take count src in
  if Nat.ltb (String.length copied) size then Ret copied else InvalidParameter.

(** [sprintf_s(dest, size, ...)], given the formatted text. *)
Definition sprintf_s (size : nat) (text : string) : res string :=
  if Nat.ltb (String.length text) size then Ret text else InvalidParameter.

End CString.
Import CString.

(** ** ReadVersionFile *)

(** The characters [fgets] stores when it may still store [room] of them:
    it stops after a newline, at end of file, or when the room is used up. *)
Fixpoint fgets_chars (room : nat) (file : string) : string :=
  match room, file with
  | S room', String c file' =>
      if Ascii.eqb c LF then String c EmptyString
      else String c (fgets_chars room' file')
  | _, _ => EmptyString
  end.

(** [fgets(buf, n, file)] on a stream positioned at its start: [None] is the
    NULL returned at end of file, when nothing is stored.  The stream is the
    character sequence the CRT's text mode delivers. *)
Definition fgets (n : nat) (file : string) : option string :=
  match file with
  | EmptyString => None
  | _ => Some (fgets_chars (n - 1) file)
  end.

Definition is_eol (c : ascii) : bool := Ascii.eqb c LF || Ascii.eqb c CR.

(** [while (len > 0 && (version[len-1] == '\n' || version[len-1] == '\r'))
      version[--len] = '\0';]   The value of [len] after the loop. *)
Fixpoint trim_len (version : string) (len : nat) : nat :=
  match len with
  | O => O
  | S l =>
      match String.get l version with
      | Some c => if is_eol c then trim_len version l else len
      | None => len
      end
  end.

(** [if (version[0] == 'v') memmove(version, version + 1, len);] with [len]
    the length of [version]: the terminator moves along. *)
Definition strip_v (version : string) : string :=
  if Ascii.eqb (char0 version) "v"%char then ptr_inc version else version.

(** [file] is what [fopen(path, "r")] gives: [None] when it fails.  [version]
    is the buffer's contents on entry, [size] its size.  The result is the
    returned BOOL and the buffer's contents on return. *)
Definition ReadVersionFile (file : option string) (version : string) (size : nat)
  : res (bool * string) :=
  match file with
  | None =>
      res_bind (strcpy_s size "0.0.0") (fun version => Ret (false, version))
  | Some f =>
      match fgets size f with
      | Some chars =>
          let version := cstr chars in
          let len := strlen version in
          let len := trim_len version len in
          let version := take len version in
          Ret (true, strip_v version)
      | None => Ret (true, version)
      end
  end.

(** ** CheckForUpdates *)

(** A name between double quotes, as the keys and values of the feed are. *)
Definition quoted (s : string) : string := String DQUOTE (s ++ String DQUOTE EmptyString).

Definition TAG_NAME_KEY : string := quoted "tag_name".
Definition BROWSER_DOWNLOAD_URL_KEY : string := quoted "browser_download_url".
Definition EXE : string := ".exe".

Definition set_version (r : ReleaseInfo) (v : string) : ReleaseInfo :=
  mkRelease v (download_url r) (filename r).
Definition set_download_url (r : ReleaseInfo) (u : string) : ReleaseInfo :=
  mkRelease (version r) u (filename r).
Definition set_filename (r : ReleaseInfo) (f : string) : ReleaseInfo :=
  mkRelease (version r) (download_url r) f.

(** Lines 102-124, "Parse JSON (simple string search)": [release->version]
    is written only when every search succeeds and the value fits. *)
Definition parse_tag_name (buffer : string) (release : ReleaseInfo) : res ReleaseInfo :=
  match strstr buffer TAG_NAME_KEY with
  | Some tag_name =>
      match strchr tag_name ":"%char with
      | Some start =>
          match strchr start DQUOTE with
          | Some start =>
              let start := ptr_inc start in
              match strchr start DQUOTE with
              | Some end_ =>
                  let len := ptr_diff end_ start in
                  if Nat.ltb len VERSION_SIZE then
                    res_bind (strncpy_s VERSION_SIZE start len) (fun v =>
                    Ret (set_version release (strip_v v)))
                  else Ret release
              | None => Ret release
              end
          | None => Ret release
          end
      | None => Ret release
      end
  | None => Ret release
  end.

(** Lines 129-156, the body of the asset loop for one occurrence of the key:
    [Some release'] when the body reaches [result = TRUE; break;], [None]
    when it falls through to the next occurrence. *)
Definition exe_asset (browser_download : string) (release : ReleaseInfo)
  : res (option ReleaseInfo) :=
  match strchr browser_download ":"%char with
  | Some url_start =>
      match strchr url_start DQUOTE with
      | Some url_start =>
          let url_start := ptr_inc url_start in
          match strchr url_start DQUOTE with
          | Some url_end =>
              match strstr url_start EXE with
              | Some _ =>
                  let url_len := ptr_diff url_end url_start in
                  if Nat.ltb url_len DOWNLOAD_URL_SIZE then
                    res_bind (strncpy_s DOWNLOAD_URL_SIZE url_start url_len) (fun url =>
                    let release := set_download_url release url in
                    match strrchr (download_url release) "/"%char with
                    | Some filename =>
                        res_bind (strcpy_s FILENAME_SIZE (ptr_inc filename)) (fun f =>
                        Ret (Some (set_filename release f)))
                    | None => Ret (Some release)
                    end)
                  else Ret None
              | None => Ret None
              end
          | None => Ret None
          end
      | None => Ret None
      end
  | None => Ret None
  end.

(** Lines 127-158, "Find .exe asset": the [while (browser_download)] loop.
    Each iteration moves [browser_download] to a later occurrence of the key,
    so a budget of one step per character of the buffer is never used up.
    The result is the value of [result] and the release record. *)
Fixpoint find_exe_asset (fuel : nat) (browser_download : option string)
  (release : ReleaseInfo) : res (bool * ReleaseInfo) :=
  match browser_download with
  | None => Ret (false, release)
  | Some bd =>
      match fuel with
      | O => OutOfFuel
      | S fuel' =>
          res_bind (exe_asset bd release) (fun found =>
          match found with
          | Some release' => Ret (true, release')
          | None =>
              find_exe_asset fuel' (strstr (ptr_inc bd) BROWSER_DOWNLOAD_URL_KEY) release
          end)
      end
  end.

(** Lines 99-158: what is done with the response once [bytesRead] bytes have
    been read into [buffer]. [data] is those bytes. *)
Definition parse_response (data : string) (release : ReleaseInfo) : res (bool * ReleaseInfo) :=
  let buffer := cstr data in
  res_bind (parse_tag_name buffer release) (fun release =>
  find_exe_asset (S (String.length buffer))
                 (strstr buffer BROWSER_DOWNLOAD_URL_KEY) release).

(** The network as one call of CheckForUpdates meets it. [feed_read] is the
    outcome of the single [InternetReadFile]: [None] when it returns FALSE,
    otherwise the bytes it stored (at most [BUFFER_SIZE - 1] of them). *)
Inductive Feed : Type :=
| FeedNoInternet                      (* InternetOpenA returns NULL *)
| FeedNoConnect                       (* InternetOpenUrlA returns NULL *)
| FeedRead (feed_read : option string).

(** Lines 81-163: the value of [result] and of [*release] at the final
    [return]; the spec's [fetchLatestRelease]. *)
Definition fetchLatestRelease (net : Feed) (release : ReleaseInfo) : res (bool * ReleaseInfo) :=
  match net with
  | FeedRead (Some data) =>
      if Nat.ltb 0 (String.length data) then parse_response data release
      else Ret (false, release)
  | _ => Ret (false, release)
  end.

(** Line 165, [result && strcmp(release->version, current_version) != 0];
    the spec's [shouldUpdate]. *)
Definition shouldUpdate (current_version : string) (result : bool) (release : ReleaseInfo) : bool :=
  result && negb (strcmp (version release) current_version =? 0)%Z.

Definition CheckForUpdates (net : Feed) (current_version : string) (release : ReleaseInfo)
  : res (bool * ReleaseInfo) :=
  res_bind (fetchLatestRelease net release) (fun '(result, release) =>
  Ret (shouldUpdate current_version result release, release)).

Definition feed_2_3_0 : string :=
  "{" ++ TAG_NAME_KEY ++ ": " ++ quoted "v2.3.0" ++ ", " ++ quoted "assets" ++ ": [{"
      ++ BROWSER_DOWNLOAD_URL_KEY ++ ": " ++ quoted "https://x/y/app-2.3.0.exe" ++ "}]}".

(** ** The operating system: events and answers

    [SetWindowText] carries the value of [totalBytes] from which line 194
    formats the text "Downloaded: %.2f MB"; the formatting itself, a
    floating-point division and rounding, is not modelled. *)

Inductive Event : Type :=
| MessageBox (text caption : string)               (* MessageBoxA(NULL, text, caption, ...) *)
| CreateWindow                                     (* CreateWindowA("STATIC", ...) *)
| ShowWindow                                       (* ShowWindow; UpdateWindow *)
| SetWindowText (totalBytes : Z)                   (* SetWindowTextA(hwnd, progress) *)
| DestroyWindow
| Fopen (path : string)                            (* fopen_s(&file, path, "wb") *)
| Fwrite (path : string) (data : string)           (* fwrite(buffer, 1, bytesRead, file) *)
| Fclose (path : string)
| CreateProcess (application command_line directory : option string).

(** The outcome of one [InternetReadFile] of the download loop: [None] when
    it returns FALSE, otherwise the bytes it stored (at most [BUFFER_SIZE]). *)
Definition read_outcome : Type := option string.

(** The answers the download meets.  After the listed reads the source is at
    its end: a further read returns TRUE and no bytes. *)
Record Download := mkDownload {
  dl_internet : bool;                 (* InternetOpenA returns a handle *)
  dl_connect : bool;                  (* InternetOpenUrlA returns a handle *)
  dl_fopen : bool;                    (* fopen_s returns 0 *)
  dl_reads : list read_outcome
}.

Record World := mkWorld {
  module_file_name : string;          (* text GetModuleFileNameA stores; its length is returned *)
  version_file : string -> option string;     (* fopen(path, "r") and the stream it gives *)
  stack_version : string;             (* contents of the uninitialised current_version[32] *)
  feed : Feed;
  dialog_answer : Z;                  (* value MessageBoxA returns for the update dialog *)
  temp_path : string;                 (* text GetTempPathA stores *)
  window : bool;                      (* CreateWindowA returns a handle *)
  download : Download;
  create_process : option string -> option string -> bool
                                      (* CreateProcessA(application, command_line, ...) succeeds *)
}.

Definition IDYES : Z := 6.

(** Computations that log events and may end in the invalid-parameter
    handler. *)
Definition M (A : Type) : Type := (list Event * res A)%type.

Definition ret {A} (a : A) : M A := ([], Ret a).

Definition bind {A B} (m : M A) (f : A -> M B) : M B :=
  match m with
  | (t, Ret a) => let (t', r) := f a in ((t ++ t')%list, r)
  | (t, InvalidParameter) => (t, InvalidParameter)
  | (t, OutOfFuel) => (t, OutOfFuel)
  end.

Definition emit (e : Event) : M unit := ([e], Ret tt).
Definition lift {A} (r : res A) : M A := ([], r).

Declare Scope launcher_scope.
Delimit Scope launcher_scope with launcher.
Notation "x <- m ;; k" := (bind m (fun x => k))
  (at level 61, m at next level, right associativity) : launcher_scope.
Notation "' p <- m ;; k" := (bind m (fun p => k))
  (at level 61, p pattern, m at next level, right associativity) : launcher_scope.
Notation "m ;;; k" := (bind m (fun _ => k))
  (at level 61, right associativity) : launcher_scope.
Open Scope launcher_scope.

(** ** GetAppDirectory *)

(** [buffer] is what GetModuleFileNameA stored; the call returns its length.
    [None] is the FALSE return; otherwise the buffer on return. *)
Definition GetAppDirectory (buffer : string) : option string :=
  if Nat.eqb (String.length buffer) 0 then None
  else match strrchr buffer BACKSLASH with
       | Some last_slash => Some (take (ptr_diff last_slash buffer) buffer)
       | None => Some buffer
       end.

(** ** DownloadFile *)

Definition DWORD_MAX : Z := (2 ^ 32)%Z.

(** Lines 187-197.  [totalBytes] is a DWORD: the addition wraps. *)
Fixpoint download_loop (reads : list read_outcome) (dest_path : string) (hwnd : bool)
  (totalBytes : Z) : list Event :=
  match reads with
  | Some buffer :: reads' =>
      let bytesRead := Z.of_nat (String.length buffer) in
      if (0 <? bytesRead)%Z then
        let totalBytes := ((totalBytes + bytesRead) mod DWORD_MAX)%Z in
        (Fwrite dest_path buffer ::
         (if hwnd then [SetWindowText totalBytes] else []) ++
         download_loop reads' dest_path hwnd totalBytes)%list
      else []
  | _ => []
  end.

Definition DownloadFile (net : Download) (url dest_path : string) (hwnd : bool)
  : list Event * bool :=
  if negb (dl_internet net) then ([], false)
  else if negb (dl_connect net) then ([], false)
  else if negb (dl_fopen net) then ([Fopen dest_path], false)
  else (([Fopen dest_path] ++ download_loop (dl_reads net) dest_path hwnd 0
           ++ [Fclose dest_path])%list, true).

(** ** LaunchInstaller, LaunchMainApp, ShowError, ShowUpdateDialog *)

Definition LaunchInstaller (w : World) (installer_path : string) : M bool :=
  cmdline <- lift (sprintf_s (MAX_PATH_LEN * 2) (quoted installer_path ++ " /UPDATE /SILENT")) ;;
  emit (CreateProcess None (Some cmdline) None) ;;;
  ret (create_process w None (Some cmdline)).

Definition LaunchMainApp (w : World) (exe_path : string) : M bool :=
  dir <- lift (strcpy_s MAX_PATH_LEN exe_path) ;;
  let dir := match strrchr dir BACKSLASH with
             | Some last_slash => take (ptr_diff last_slash dir) dir
             | None => dir
             end in
  emit (CreateProcess (Some exe_path) None (Some dir)) ;;;
  ret (create_process w (Some exe_path) None).

Definition ShowError (message : string) : M unit := emit (MessageBox message "Error").

Definition update_message (current_ver new_ver : string) : string :=
  "A new version " ++ new_ver ++ " is available." ++ String LF "Current version: "
    ++ current_ver ++ String LF (String LF "Update now?").

Definition ShowUpdateDialog (w : World) (current_ver new_ver : string) : M Z :=
  message <- lift (sprintf_s 512 (update_message current_ver new_ver)) ;;
  emit (MessageBox message "Update Available") ;;;
  ret (dialog_answer w).

(** ** WinMain *)

(** Lines 291-324.  [Some code] is a [return code;] from inside the block,
    [None] is falling out of it to line 326. *)
Definition update_block (w : World) (current_version : string) : M (option Z) :=
  '(update, release) <- lift (CheckForUpdates (feed w) current_version release_zero) ;;
  if update : bool then
    answer <- ShowUpdateDialog w current_version (version release) ;;
    if (answer =? IDYES)%Z then
      installer_path <- lift (sprintf_s MAX_PATH_LEN (temp_path w ++ filename release)) ;;
      emit CreateWindow ;;;
      let hwnd := window w in
      (if hwnd then emit ShowWindow else ret tt) ;;;
      let (written, ok) := DownloadFile (download w) (download_url release) installer_path hwnd in
      (written, Ret tt) ;;;
      if ok then
        (if hwnd then emit DestroyWindow else ret tt) ;;;
        launched <- LaunchInstaller w installer_path ;;
        if launched : bool then ret (Some 0%Z)
        else ShowError "Failed to launch installer" ;;; ret None
      else
        (if hwnd then emit DestroyWindow else ret tt) ;;;
        ShowError "Failed to download update" ;;; ret None
    else ret None
  else ret None.

(** Lines 326-335, "Launch main application". *)
Definition main_app_block (w : World) (app_dir : string) : M Z :=
  exe_path <- lift (sprintf_s MAX_PATH_LEN (app_dir ++ String BACKSLASH MAIN_EXE)) ;;
  launched <- LaunchMainApp w exe_path ;;
  if launched : bool then ret 0%Z
  else
    error <- lift (sprintf_s 512 ("Failed to launch " ++ MAIN_EXE)) ;;
    ShowError error ;;; ret 1%Z.

(** The trace of the run and the process's exit code. *)
Definition WinMain (w : World) : M Z :=
  match GetAppDirectory (module_file_name w) with
  | None => ShowError "Failed to get application directory" ;;; ret 1%Z
  | Some app_dir =>
      version_path <- lift (sprintf_s MAX_PATH_LEN
                              (app_dir ++ String BACKSLASH VERSION_FILE)) ;;
      '(_, current_version) <- lift (ReadVersionFile (version_file w version_path)
                                                     (stack_version w) 32) ;;
      returned <- update_block w current_version ;;
      match returned with
      | Some code => ret code
      | None => main_app_block w app_dir
      end
  end.

(** * Reference definitions

    The notions the specification uses, written from its words, against
    which the functions above are compared. *)

(** [s] holds the character [c]. *)
Fixpoint mem_char (c : ascii) (s : string) : bool :=
  match s with
  | EmptyString => false
  | String a s' => Ascii.eqb a c || mem_char c s'
  end.

(** The first line of a text: the characters before its first newline. *)
Fixpoint first_line (f : string) : string :=
  match f with
  | EmptyString => EmptyString
  | String c f' => if Ascii.eqb c LF then EmptyString else String c (first_line f')
  end.

(** Every character of [s] is a line-ending character. *)
Fixpoint all_eol (s : string) : bool :=
  match s with
  | EmptyString => true
  | String c s' => is_eol c && all_eol s'
  end.

(** [s] with its trailing line-ending characters removed. *)
Fixpoint strip_line_ending (s : string) : string :=
  match s with
  | EmptyString => EmptyString
  | String c s' => if all_eol s then EmptyString else String c (strip_line_ending s')
  end.

(** [s] with one leading [v] removed. *)
Definition strip_leading_v (s : string) : string :=
  match s with
  | String "v"%char s' => s'
  | _ => s
  end.

(** The world [w] with another marker file. *)
Definition with_version_file (w : World) (vf : string -> option string) : World :=
  mkWorld (module_file_name w) vf (stack_version w) (feed w) (dialog_answer w)
          (temp_path w) (window w) (download w) (create_process w).

(** A marker file with a first line of 38 bytes. *)
Definition long_marker (tail : string) : string :=
  "1.2.3-a-very-long-build-identif" ++ tail.

(** The bytes the events of a trace write to the file at [path], in order. *)
Fixpoint written (path : string) (t : list Event) : string :=
  match t with
  | [] => EmptyString
  | Fwrite p data :: t' =>
      if String.eqb p path then data ++ written path t' else written path t'
  | _ :: t' => written path t'
  end.

(** The cumulative counts a trace hands to the progress window, in order. *)
Fixpoint progress_counts (t : list Event) : list Z :=
  match t with
  | [] => []
  | SetWindowText totalBytes :: t' => totalBytes :: progress_counts t'
  | _ :: t' => progress_counts t'
  end.

(** The bytes a source delivers: its chunks up to the first read that fails
    or brings nothing. *)
Fixpoint delivered (reads : list read_outcome) : string :=
  match reads with
  | Some buffer :: reads' =>
      if Nat.ltb 0 (String.length buffer) then buffer ++ delivered reads' else EmptyString
  | _ => EmptyString
  end.

(** Each element is at most the next one. *)
Fixpoint nondecreasing (l : list Z) : Prop :=
  match l with
  | a :: (b :: _) as l' => (a <= b)%Z /\ nondecreasing l'
  | _ => True
  end.

Fixpoint replicate (n : nat) (c : ascii) : string :=
  match n with
  | O => EmptyString
  | S n' => String c (replicate n' c)
  end.

(** A full buffer of [BUFFER_SIZE] bytes, and a source that delivers 4 GiB in
    524288 such buffers. *)
Definition full_chunk : string := replicate (N.to_nat 8192) "x"%char.

Definition four_gib_reads : list read_outcome :=
  (repeat (Some full_chunk) (N.to_nat 524286) ++ [Some full_chunk; Some full_chunk])%list.

Definition four_gib_download : Download := mkDownload true true true four_gib_reads.

(** The two kinds of process the launcher starts: the installer is started
    from a command line, the main application from its executable's path. *)
Definition is_installer_launch (e : Event) : bool :=
  match e with
  | CreateProcess None (Some _) _ => true
  | _ => false
  end.

Definition is_main_app_launch (e : Event) : bool :=
  match e with
  | CreateProcess (Some _) _ _ => true
  | _ => false
  end.

(** A run in which an update is found, accepted and downloaded. [reads] are
    the reads of the download, [created] the answer of CreateProcessA. *)
Definition backslash (a b : string) : string := a ++ String BACKSLASH b.

Definition update_world (reads : list read_outcome)
  (created : option string -> option string -> bool) : World :=
  mkWorld (backslash "C:" (backslash "Apps" (backslash "Workspace" "launcher.exe")))
          (fun _ => Some ("1.2.0" ++ String LF EmptyString))
          EmptyString
          (FeedRead (Some feed_2_3_0))
          IDYES
          (backslash "C:" (backslash "Temp" EmptyString))
          true
          (mkDownload true true true reads)
          created.

(** CreateProcessA fails for the installer and succeeds for the main
    application. *)
Definition only_main_app_starts (application command_line : option string) : bool :=
  match application with
  | Some _ => true
  | None => false
  end.

Definition all_start (application command_line : option string) : bool := true.

(** The command line LaunchInstaller builds. *)
Definition installer_command_line (installer_path : string) : string :=
  quoted installer_path ++ " /UPDATE /SILENT".

(** The events of a download are file and progress events only. *)
Definition is_download_event (e : Event) : bool :=
  match e with
  | Fopen _ | Fwrite _ _ | Fclose _ | SetWindowText _ => true
  | _ => false
  end.

(** The events of lines 292-322 once the update is accepted and the
    installer path is built: the dialog, the progress window, the download,
    and what follows it. *)
Definition accepted_update_trace (w : World) (release : ReleaseInfo)
  (message installer_path : string) : list Event :=
  let dl := DownloadFile (download w) (download_url release) installer_path (window w) in
  let command_line := installer_command_line installer_path in
  (MessageBox message "Update Available" :: CreateWindow
     :: (if window w then [ShowWindow] else [])
     ++ fst dl
     ++ (if window w then [DestroyWindow] else [])
     ++ (if snd dl
         then CreateProcess None (Some command_line) None
                :: (if create_process w None (Some command_line) then []
                    else [MessageBox "Failed to launch installer" "Error"])
         else [MessageBox "Failed to download update" "Error"]))%list.

(** A run in which the update is accepted and the download cannot open its
    destination file. *)
Definition unwritable_world : World :=
  mkWorld (backslash "C:" (backslash "Apps" (backslash "Workspace" "launcher.exe")))
          (fun _ => Some ("1.2.0" ++ String LF EmptyString))
          EmptyString
          (FeedRead (Some feed_2_3_0))
          IDYES
          (backslash "C:" (backslash "Temp" EmptyString))
          true
          (mkDownload true true false [Some "MZ"])
          all_start.

(** ** The feed, in the specification's words *)

(** [sub] occurs in [s]. *)
Fixpoint contains (sub s : string) : bool :=
  String.prefix sub s
  || match s with
     | EmptyString => false
     | String _ s' => contains sub s'
     end.

(** The occurrences of [key] in [s], left to right, each given as the text
    from the occurrence to the end of [s]. *)
Fixpoint occurrences (key s : string) : list string :=
  ((if String.prefix key s then [s] else [])
   ++ match s with
      | EmptyString => []
      | String _ s' => occurrences key s'
      end)%list.

(** The text before the first [c] of [s] and the text after it. *)
Fixpoint split_at (c : ascii) (s : string) : option (string * string) :=
  match s with
  | EmptyString => None
  | String a s' =>
      if Ascii.eqb a c then Some (EmptyString, s')
      else match split_at c s' with
           | Some (before, after) => Some (String a before, after)
           | None => None
           end
  end.

(** The quoted-string value of the field whose key occurs at [occ]: the text
    between the first double quote after the next colon and the double quote
    that follows it.  It is given with the text that starts at the value and
    runs to the end of the document. *)
Definition quoted_value_from (occ : string) : option (string * string) :=
  match split_at ":"%char occ with
  | Some (_, after_colon) =>
      match split_at DQUOTE after_colon with
      | Some (_, from_value) =>
          match split_at DQUOTE from_value with
          | Some (value, _) => Some (value, from_value)
          | None => None
          end
      | None => None
      end
  | None => None
  end.

Definition quoted_value (occ : string) : option string :=
  option_map fst (quoted_value_from occ).

(** The asset C6 describes: the value of the first occurrence of
    [browser_download_url] whose value contains ".exe". *)
Definition value_has_exe (occ : string) : bool :=
  match quoted_value occ with
  | Some value => contains EXE value
  | None => false
  end.

Definition first_exe_asset (doc : string) : option string :=
  match find value_has_exe (occurrences BROWSER_DOWNLOAD_URL_KEY doc) with
  | Some occ => quoted_value occ
  | None => None
  end.

(** An occurrence whose value contains ".exe" and fits [download_url], that
    is, has fewer than 512 bytes. *)
Definition short_value_has_exe (occ : string) : bool :=
  match quoted_value occ with
  | Some value => contains EXE value && Nat.ltb (String.length value) DOWNLOAD_URL_SIZE
  | None => false
  end.

(** Lines 140-150 for a value [url] that fits [download_url]. *)
Definition store_url (release : ReleaseInfo) (url : string) : res (option ReleaseInfo) :=
  let release := set_download_url release url in
  match strrchr url "/"%char with
  | Some filename =>
      res_bind (strcpy_s FILENAME_SIZE (ptr_inc filename)) (fun f =>
      Ret (Some (set_filename release f)))
  | None => Ret (Some release)
  end.

(** The asset loop as a traversal of the key's occurrences. *)
Fixpoint scan_occurrences (occs : list string) (release : ReleaseInfo)
  : res (bool * ReleaseInfo) :=
  match occs with
  | [] => Ret (false, release)
  | occ :: rest =>
      res_bind (exe_asset occ release) (fun found =>
      match found with
      | Some release' => Ret (true, release')
      | None => scan_occurrences rest release
      end)
  end.

(** Two feeds. In the first, the first asset URL is 614 bytes long; in the
    second, there is no [tag_name]. *)
Definition long_url : string := "https://x/" ++ replicate 600 "a"%char ++ ".exe".

Definition feed_long_first : string :=
  "{" ++ TAG_NAME_KEY ++ ": " ++ quoted "v2.3.0" ++ ", " ++ quoted "assets" ++ ": [{"
      ++ BROWSER_DOWNLOAD_URL_KEY ++ ": " ++ quoted long_url ++ "}, {"
      ++ BROWSER_DOWNLOAD_URL_KEY ++ ": " ++ quoted "https://x/y/app-2.3.0.exe" ++ "}]}".

Definition feed_without_tag : string :=
  "{" ++ quoted "assets" ++ ": [{"
      ++ BROWSER_DOWNLOAD_URL_KEY ++ ": " ++ quoted "https://x/y/app-2.3.0.exe" ++ "}]}".

(** A feed whose first asset is an archive and whose second is the
    installer. *)
Definition feed_zip_first : string :=
  "{" ++ TAG_NAME_KEY ++ ": " ++ quoted "v2.3.0" ++ ", " ++ quoted "assets" ++ ": [{"
      ++ BROWSER_DOWNLOAD_URL_KEY ++ ": " ++ quoted "https://x/y/app-2.3.0.zip" ++ "}, {"
      ++ BROWSER_DOWNLOAD_URL_KEY ++ ": " ++ quoted "https://x/y/app-2.3.0.exe" ++ "}]}".

(** A feed whose only asset is an archive; ".exe" occurs after it, in the
    release notes. *)
Definition feed_zip_only : string :=
  "{" ++ TAG_NAME_KEY ++ ": " ++ quoted "v2.3.0" ++ ", " ++ quoted "assets" ++ ": [{"
      ++ BROWSER_DOWNLOAD_URL_KEY ++ ": " ++ quoted "https://x/y/app-2.3.0.zip" ++ "}], "
      ++ quoted "body" ++ ": " ++ quoted "the .exe installer follows next week" ++ "}".


(** What the release record holds once the asset URL [url] has been stored:
    the URL, the version as it was, and as file name the text after the
    URL's last slash, or the old file name when the URL has no slash. *)
Definition stored (release : ReleaseInfo) (url : string) (r : ReleaseInfo) : Prop :=
  download_url r = url
  /\ version r = version release
  /\ ((mem_char "/"%char url = false /\ filename r = filename release)
      \/ (exists before,
             url = before ++ String "/"%char (filename r)
             /\ mem_char "/"%char (filename r) = false
             /\ String.length (filename r) < FILENAME_SIZE)).

(** The version the tag scan leaves in the record: the value of the first
    [tag_name] without one leading v when that value is shorter than
    [version], otherwise the version as it was. *)
Definition tag_version (doc : string) (old : string) : string :=
  match hd_error (occurrences TAG_NAME_KEY doc) with
  | Some tag =>
      match quoted_value_from tag with
      | Some (value, _) =>
          if Nat.ltb (String.length value) VERSION_SIZE then strip_leading_v value else old
      | None => old
      end
  | None => old
  end.

(** * Further reference definitions *)

(** The user-visible activity of an update: the progress window, the
    download's file and progress events, and the start of the installer. *)
Definition is_update_activity (e : Event) : bool :=
  match e with
  | CreateWindow | ShowWindow | DestroyWindow | SetWindowText _
  | Fopen _ | Fwrite _ _ | Fclose _ => true
  | CreateProcess None _ _ => true
  | _ => false
  end.

(** The update dialog. *)
Definition is_update_dialog (e : Event) : bool :=
  match e with
  | MessageBox _ caption => String.eqb caption "Update Available"
  | _ => false
  end.

(** A feed that gives no response to parse: a handle could not be opened,
    the read failed, or it brought no bytes. *)
Definition feed_unavailable (net : Feed) : bool :=
  match net with
  | FeedNoInternet | FeedNoConnect | FeedRead None => true
  | FeedRead (Some data) => Nat.eqb (String.length data) 0
  end.

(** A process creation of the trace that succeeded in the world [w]. *)
Definition process_started (w : World) (e : Event) : bool :=
  match e with
  | CreateProcess application command_line _ => create_process w application command_line
  | _ => false
  end.

(** The three fields of a release fit the arrays that hold them. *)
Definition release_fits (r : ReleaseInfo) : Prop :=
  String.length (version r) < VERSION_SIZE
  /\ String.length (download_url r) < DOWNLOAD_URL_SIZE
  /\ String.length (filename r) < FILENAME_SIZE.

(** ** The launcher as a state machine

    The paths of lines 291-324 and of the whole of WinMain, each given with
    the trace it leaves. *)

(** The trace up to the end of the download: the update dialog, the progress
    window, the events of the download. *)
Definition download_window_trace (w : World) (release : ReleaseInfo)
  (message installer_path : string) : list Event :=
  (MessageBox message "Update Available" :: CreateWindow
     :: (if window w then [ShowWindow] else [])
     ++ fst (DownloadFile (download w) (download_url release) installer_path (window w))
     ++ (if window w then [DestroyWindow] else []))%list.

(** [update_path w current_version t started]: the update block can leave
    the trace [t], having started the installer or not. *)
Inductive update_path (w : World) (current_version : string)
  : list Event -> bool -> Prop :=
| path_no_update (release : ReleaseInfo) :
    CheckForUpdates (feed w) current_version release_zero = Ret (false, release) ->
    update_path w current_version [] false
| path_declined (release : ReleaseInfo) :
    CheckForUpdates (feed w) current_version release_zero = Ret (true, release) ->
    dialog_answer w <> IDYES ->
    update_path w current_version
      [MessageBox (update_message current_version (version release)) "Update Available"] false
| path_download_failed (release : ReleaseInfo) :
    let installer_path := temp_path w ++ filename release in
    CheckForUpdates (feed w) current_version release_zero = Ret (true, release) ->
    dialog_answer w = IDYES ->
    snd (DownloadFile (download w) (download_url release) installer_path (window w)) = false ->
    update_path w current_version
      (download_window_trace w release
         (update_message current_version (version release)) installer_path
       ++ [MessageBox "Failed to download update" "Error"])%list false
| path_installer_failed (release : ReleaseInfo) :
    let installer_path := temp_path w ++ filename release in
    CheckForUpdates (feed w) current_version release_zero = Ret (true, release) ->
    dialog_answer w = IDYES ->
    snd (DownloadFile (download w) (download_url release) installer_path (window w)) = true ->
    create_process w None (Some (installer_command_line installer_path)) = false ->
    update_path w current_version
      (download_window_trace w release
         (update_message current_version (version release)) installer_path
       ++ [CreateProcess None (Some (installer_command_line installer_path)) None;
           MessageBox "Failed to launch installer" "Error"])%list false
| path_installer_started (release : ReleaseInfo) :
    let installer_path := temp_path w ++ filename release in
    CheckForUpdates (feed w) current_version release_zero = Ret (true, release) ->
    dialog_answer w = IDYES ->
    snd (DownloadFile (download w) (download_url release) installer_path (window w)) = true ->
    create_process w None (Some (installer_command_line installer_path)) = true ->
    update_path w current_version
      (download_window_trace w release
         (update_message current_version (version release)) installer_path
       ++ [CreateProcess None (Some (installer_command_line installer_path)) None])%list true.

(** The version WinMain compares with the feed: what ReadVersionFile leaves
    in [current_version] for the marker file beside the launcher. *)
Definition local_version (w : World) (app_dir : string) : res (bool * string) :=
  ReadVersionFile (version_file w (app_dir ++ String BACKSLASH VERSION_FILE))
                  (stack_version w) 32.

(** [launcher_run w t r]: WinMain can leave the trace [t] and end with [r]. *)
Inductive launcher_run (w : World) : list Event -> res Z -> Prop :=
| run_no_directory :
    GetAppDirectory (module_file_name w) = None ->
    launcher_run w [MessageBox "Failed to get application directory" "Error"] (Ret 1%Z)
| run_installer (app_dir : string) (opened : bool) (current_version : string)
    (head : list Event) :
    GetAppDirectory (module_file_name w) = Some app_dir ->
    local_version w app_dir = Ret (opened, current_version) ->
    update_path w current_version head true ->
    launcher_run w head (Ret 0%Z)
| run_main_app (app_dir : string) (opened : bool) (current_version : string)
    (head : list Event) :
    let exe_path := app_dir ++ String BACKSLASH MAIN_EXE in
    let created := create_process w (Some exe_path) None in
    GetAppDirectory (module_file_name w) = Some app_dir ->
    local_version w app_dir = Ret (opened, current_version) ->
    update_path w current_version head false ->
    String.length exe_path < MAX_PATH_LEN ->
    launcher_run w
      (head ++ CreateProcess (Some exe_path) None (Some app_dir)
            :: (if created then [] else [MessageBox "Failed to launch workspace.exe" "Error"]))%list
      (Ret (if created then 0 else 1)%Z)
| run_invalid_parameter (app_dir : string) (head : list Event) :
    GetAppDirectory (module_file_name w) = Some app_dir ->
    head = []
    \/ (exists opened current_version release,
           local_version w app_dir = Ret (opened, current_version)
           /\ CheckForUpdates (feed w) current_version release_zero = Ret (true, release)
           /\ dialog_answer w = IDYES
           /\ head = [MessageBox (update_message current_version (version release))
                                 "Update Available"])
    \/ (exists opened current_version,
           local_version w app_dir = Ret (opened, current_version)
           /\ update_path w current_version head false) ->
    launcher_run w head InvalidParameter.

Definition is_process (e : Event) : bool :=
  match e with
  | CreateProcess _ _ _ => true
  | _ => false
  end.

(** The chunks of a source one after the other. *)
Fixpoint concat_chunks (chunks : list string) : string :=
  match chunks with
  | [] => EmptyString
  | c :: chunks' => c ++ concat_chunks chunks'
  end.

(** A read that ends the download loop: it fails or brings no bytes. *)
Definition ends_download (r : read_outcome) : bool :=
  match r with
  | None => true
  | Some buffer => Nat.eqb (String.length buffer) 0
  end.

(** A feed whose only asset has a file name of 134 bytes, and a run that
    meets it. *)
Definition feed_long_name : string :=
  "{" ++ TAG_NAME_KEY ++ ": " ++ quoted "v2.3.0" ++ ", " ++ quoted "assets" ++ ": [{"
      ++ BROWSER_DOWNLOAD_URL_KEY ++ ": "
      ++ quoted ("https://x/y/" ++ replicate 130 "a"%char ++ ".exe") ++ "}]}".

Definition long_name_world : World :=
  mkWorld (backslash "C:" (backslash "Apps" (backslash "Workspace" "launcher.exe")))
          (fun _ => Some ("1.2.0" ++ String LF EmptyString))
          EmptyString
          (FeedRead (Some feed_long_name))
          IDYES
          (backslash "C:" (backslash "Temp" EmptyString))
          true
          (mkDownload true true true [Some "MZ"])
          all_start.

(** * Properties *)

(** ** Strings *)

Lemma string_rev_ind (P : string -> Prop) :
  P EmptyString ->
  (forall s c, P s -> P (s ++ String c EmptyString)) ->
  forall s, P s.
Proof.
  intros H0 Hstep s.
  remember (String.length s) as n eqn:Hn.
  revert s Hn; induction n as [|n IH]; intros s Hn.
  - destruct s; [exact H0|discriminate].
  - assert (Hsplit : exists s' c, s = s' ++ String c EmptyString /\ String.length s' = n).
    { clear IH H0 Hstep. revert n Hn. induction s as [|a s IHs]; intros n Hn; [discriminate|].
      destruct s as [|b s].
      - exists EmptyString, a. simpl in *. split; [reflexivity|congruence].
      - destruct n as [|n]; [discriminate|].
        destruct (IHs n) as (s' & c & Hs & Hl); [simpl in *; congruence|].
        exists (String a s'), c. simpl. rewrite <- Hs. split; [reflexivity|congruence]. }
    destruct Hsplit as (s' & c & -> & Hl). apply Hstep, IH. symmetry; exact Hl.
Qed.

Lemma length_app (s t : string) :
  String.length (s ++ t) = String.length s + String.length t.
Proof. induction s; simpl; congruence. Qed.

Lemma app_empty_r (s : string) : s ++ EmptyString = s.
Proof. induction s; simpl; congruence. Qed.

Lemma app_assoc (s t u : string) : (s ++ t) ++ u = s ++ t ++ u.
Proof. induction s; simpl; congruence. Qed.

Lemma take_length_le (n : nat) (s : string) : String.length (take n s) <= n.
Proof.
  revert s; induction n as [|n IH]; intros [|c s]; simpl; try lia.
  specialize (IH s); lia.
Qed.

Lemma take_length (n : nat) (s : string) :
  n <= String.length s -> String.length (take n s) = n.
Proof.
  revert s; induction n as [|n IH]; intros [|c s]; simpl; intros H; try lia.
  rewrite IH; lia.
Qed.

Lemma take_all (n : nat) (s : string) : String.length s <= n -> take n s = s.
Proof.
  revert s; induction n as [|n IH]; intros [|c s]; simpl; intros H; try reflexivity; try lia.
  f_equal; apply IH; lia.
Qed.

Lemma take_app_le (n : nat) (s t : string) :
  n <= String.length s -> take n (s ++ t) = take n s.
Proof.
  revert s; induction n as [|n IH]; intros [|c s]; simpl; intros H; try reflexivity; try lia.
  f_equal; apply IH; lia.
Qed.

Lemma take_app_exact (s t : string) : take (String.length s) (s ++ t) = s.
Proof.
  rewrite take_app_le by lia. apply take_all; lia.
Qed.

Lemma take_take (n m : nat) (s : string) : n <= m -> take n (take m s) = take n s.
Proof.
  revert m s; induction n as [|n IH]; intros [|m] [|c s] H; simpl; try reflexivity; try lia.
  f_equal; apply IH; lia.
Qed.

Lemma cstr_no_nul (s : string) : mem_char NUL s = false -> cstr s = s.
Proof.
  induction s as [|c s IH]; simpl; [reflexivity|].
  intros H. apply orb_false_iff in H as [Hc Hs]. rewrite Hc. f_equal; auto.
Qed.

Lemma mem_char_cstr (s : string) : mem_char NUL (cstr s) = false.
Proof.
  induction s as [|c s IH]; simpl; [reflexivity|].
  destruct (Ascii.eqb c NUL) eqn:E; simpl; [reflexivity|]. now rewrite E.
Qed.

Lemma mem_char_app (c : ascii) (s t : string) :
  mem_char c (s ++ t) = mem_char c s || mem_char c t.
Proof.
  induction s as [|a s IH]; simpl; [reflexivity|]. rewrite IH. apply orb_assoc.
Qed.

Lemma mem_char_take (c : ascii) (n : nat) (s : string) :
  mem_char c s = false -> mem_char c (take n s) = false.
Proof.
  revert s; induction n as [|n IH]; intros [|a s]; simpl; try reflexivity.
  intros H. apply orb_false_iff in H as [Ha Hs]. rewrite Ha; simpl; auto.
Qed.

Lemma strip_v_spec (s : string) : strip_v s = strip_leading_v s.
Proof.
  destruct s as [|c s]; [reflexivity|].
  unfold strip_v, strip_leading_v; simpl.
  destruct (Ascii.eqb_spec c "v"%char) as [->|Hc]; [reflexivity|].
  destruct c as [[] [] [] [] [] [] [] []]; try reflexivity. congruence.
Qed.

(** ** Update decision *)

Lemma strcmp_refl (a : string) : strcmp a a = 0%Z.
Proof.
  induction a as [|c a IH]; simpl; [reflexivity|].
  now rewrite Ascii.eqb_refl.
Qed.

Lemma strcmp_zero_eq (a b : string) : strcmp a b = 0%Z -> a = b.
Proof.
  revert b; induction a as [|c a IH]; intros [|d b]; simpl; try discriminate; auto.
  destruct (Ascii.eqb_spec c d) as [->|Hcd].
  - intros H; f_equal; auto.
  - destruct (N_of_ascii c <? N_of_ascii d)%N; discriminate.
Qed.

Lemma strcmp_zero_iff (a b : string) : strcmp a b = 0%Z <-> a = b.
Proof.
  split; [apply strcmp_zero_eq|intros ->; apply strcmp_refl].
Qed.

(** C5. shouldUpdate holds exactly when a release is present and its version
    string differs from the local one as a byte string; an older remote
    version still gives true, an equal one gives false. *)
Theorem shouldUpdate_iff_present_and_different :
  (forall (local : string) (result : bool) (release : ReleaseInfo),
      shouldUpdate local result release = true
      <-> result = true /\ version release <> local)
  /\ (forall u f, shouldUpdate "1.0.0" true (mkRelease "0.9.0" u f) = true)
  /\ (forall u f, shouldUpdate "1.0.0" true (mkRelease "1.0.0" u f) = false)
  /\ (forall net local release,
         CheckForUpdates net local release
         = res_bind (fetchLatestRelease net release) (fun p =>
             Ret (shouldUpdate local (fst p) (snd p), snd p))).
Proof.
  repeat split.
  - unfold shouldUpdate in H. apply andb_true_iff in H. tauto.
  - unfold shouldUpdate in H. apply andb_true_iff in H. destruct H as [_ H].
    apply negb_true_iff, Z.eqb_neq in H. intros E. apply H, strcmp_zero_iff, E.
  - intros [-> Hne]. unfold shouldUpdate. simpl.
    apply negb_true_iff, Z.eqb_neq. intros E. apply Hne, strcmp_zero_iff, E.
  - intros net local release. unfold CheckForUpdates.
    destruct (fetchLatestRelease net release) as [[b r]| |]; reflexivity.
Qed.

(** ** ReadVersionFile *)

Lemma fgets_chars_long (n : nat) (f : string) :
  n <= String.length (first_line f) -> fgets_chars n f = take n (first_line f).
Proof.
  revert f; induction n as [|n IH]; intros [|c f]; simpl; try reflexivity.
  destruct (Ascii.eqb c LF); simpl; intros H; [lia|].
  f_equal; apply IH; lia.
Qed.

Lemma fgets_chars_short (n : nat) (f : string) :
  String.length (first_line f) < n ->
  fgets_chars n f = first_line f \/ fgets_chars n f = first_line f ++ String LF EmptyString.
Proof.
  revert f; induction n as [|n IH]; intros [|c f]; simpl; intros H; try lia; auto.
  destruct (Ascii.eqb_spec c LF) as [->|Hc]; simpl in *; [now right|].
  destruct (IH f) as [E|E]; [lia| |]; rewrite E; auto.
Qed.

Lemma first_line_no_LF (f : string) : mem_char LF (first_line f) = false.
Proof.
  induction f as [|c f IH]; simpl; [reflexivity|].
  destruct (Ascii.eqb c LF) eqn:E; simpl; [reflexivity|]. now rewrite E.
Qed.

Lemma first_line_id (s : string) : mem_char LF s = false -> first_line s = s.
Proof.
  induction s as [|c s IH]; simpl; [reflexivity|].
  intros H. apply orb_false_iff in H as [Hc Hs]. rewrite Hc. f_equal; auto.
Qed.

Lemma trim_len_le (s : string) (n : nat) : trim_len s n <= n.
Proof.
  induction n as [|n IH]; simpl; [lia|].
  destruct (String.get n s) as [c|]; [|lia]. destruct (is_eol c); lia.
Qed.

Lemma trim_len_app (s t : string) (n : nat) :
  n <= String.length s -> trim_len (s ++ t) n = trim_len s n.
Proof.
  induction n as [|n IH]; simpl; intros H; [reflexivity|].
  rewrite <- (append_correct1 s t n) by lia.
  destruct (String.get n s) as [c|]; [|reflexivity].
  destruct (is_eol c); [apply IH; lia|reflexivity].
Qed.

Lemma get_snoc (s : string) (c : ascii) :
  String.get (String.length s) (s ++ String c EmptyString) = Some c.
Proof.
  induction s as [|a s IH]; simpl; auto.
Qed.

Lemma trim_len_snoc (s : string) (c : ascii) :
  trim_len (s ++ String c EmptyString) (String.length (s ++ String c EmptyString))
  = if is_eol c then trim_len s (String.length s) else S (String.length s).
Proof.
  rewrite length_app. simpl String.length. rewrite Nat.add_1_r. simpl trim_len.
  rewrite get_snoc. destruct (is_eol c); [|reflexivity].
  apply trim_len_app; lia.
Qed.

Lemma all_eol_snoc (s : string) (c : ascii) :
  all_eol (s ++ String c EmptyString) = all_eol s && is_eol c.
Proof.
  induction s as [|a s IH]; simpl; [now rewrite andb_true_r|].
  rewrite IH. apply andb_assoc.
Qed.

Lemma strip_line_ending_snoc (s : string) (c : ascii) :
  strip_line_ending (s ++ String c EmptyString)
  = if is_eol c then strip_line_ending s else s ++ String c EmptyString.
Proof.
  induction s as [|a s IH].
  - simpl. rewrite andb_true_r. destruct (is_eol c); reflexivity.
  - change (strip_line_ending (String a s ++ String c EmptyString))
      with (if all_eol (String a s ++ String c EmptyString) then EmptyString
            else String a (strip_line_ending (s ++ String c EmptyString))).
    rewrite all_eol_snoc, IH.
    destruct (is_eol c); [rewrite andb_true_r|rewrite andb_false_r]; reflexivity.
Qed.

(** The trimming loop of the source computes [strip_line_ending]. *)
Lemma trim_len_spec (s : string) :
  take (trim_len s (strlen s)) s = strip_line_ending s.
Proof.
  unfold strlen. induction s as [|s c IH] using string_rev_ind; [reflexivity|].
  rewrite trim_len_snoc, strip_line_ending_snoc.
  destruct (is_eol c).
  - rewrite take_app_le by apply trim_len_le. exact IH.
  - apply take_all. rewrite length_app; simpl; lia.
Qed.

Lemma ReadVersionFile_opened (f version : string) (size : nat) :
  f <> EmptyString ->
  ReadVersionFile (Some f) version size
  = Ret (true, strip_leading_v (strip_line_ending (cstr (fgets_chars (size - 1) f)))).
Proof.
  intros Hf. unfold ReadVersionFile, fgets.
  destruct f as [|c f]; [congruence|].
  now rewrite trim_len_spec, strip_v_spec.
Qed.

Lemma cstr_app (s t : string) :
  cstr (s ++ t) = if mem_char NUL s then cstr s else s ++ cstr t.
Proof.
  induction s as [|c s IH]; [reflexivity|].
  cbn [append cstr mem_char]. destruct (Ascii.eqb c NUL); [reflexivity|].
  cbn [orb]. rewrite IH. destruct (mem_char NUL s); reflexivity.
Qed.

Lemma strip_line_ending_cstr_LF (s : string) :
  strip_line_ending (cstr (s ++ String LF EmptyString)) = strip_line_ending (cstr s).
Proof.
  rewrite cstr_app. destruct (mem_char NUL s) eqn:E; [reflexivity|].
  rewrite (cstr_no_nul s E).
  change (cstr (String LF EmptyString)) with (String LF EmptyString).
  now rewrite strip_line_ending_snoc.
Qed.

(** What [fgets] stores from a stream that is not empty, up to a final
    newline: the first line, as far as the buffer holds it. *)
Lemma fgets_chars_first_line (n : nat) (f : string) :
  fgets_chars n f = take n (first_line f)
  \/ fgets_chars n f = take n (first_line f) ++ String LF EmptyString.
Proof.
  destruct (Nat.le_gt_cases n (String.length (first_line f))) as [H|H].
  - left. now apply fgets_chars_long.
  - rewrite take_all by lia. now apply fgets_chars_short.
Qed.

(** C4, as the code has it. A marker file that cannot be opened gives
    "0.0.0"; one that opens and is not empty gives its first line, as far as
    the first 31 bytes and up to a NUL byte, without its trailing line-ending
    characters and without one leading v, whatever the line holds (so for a
    line of at most 31 bytes without NUL, that line stripped); and the read
    never ends in an error. *)
Theorem ReadVersionFile_fallback_or_first_line :
  (forall version, ReadVersionFile None version 32 = Ret (false, "0.0.0"))
  /\ (forall f version,
         f <> EmptyString ->
         ReadVersionFile (Some f) version 32
         = Ret (true, strip_leading_v (strip_line_ending (cstr (take 31 (first_line f))))))
  /\ (forall f version,
         f <> EmptyString ->
         String.length (first_line f) <= 31 ->
         mem_char NUL (first_line f) = false ->
         ReadVersionFile (Some f) version 32
         = Ret (true, strip_leading_v (strip_line_ending (first_line f))))
  /\ (forall file version, exists b v, ReadVersionFile file version 32 = Ret (b, v)).
Proof.
  assert (Hopen : forall f version,
             f <> EmptyString ->
             ReadVersionFile (Some f) version 32
             = Ret (true, strip_leading_v
                            (strip_line_ending (cstr (take 31 (first_line f)))))).
  { intros f version Hf. rewrite ReadVersionFile_opened by exact Hf. simpl Nat.sub.
    destruct (fgets_chars_first_line 31 f) as [-> | ->]; [reflexivity|].
    now rewrite strip_line_ending_cstr_LF. }
  split; [reflexivity|split; [exact Hopen|split]].
  - intros f version Hf Hlen Hnul. rewrite Hopen by exact Hf.
    rewrite take_all by lia. now rewrite cstr_no_nul.
  - intros [f|] version; [|eexists _, _; reflexivity].
    destruct f as [|c f]; [eexists _, _; reflexivity|].
    eexists _, _. apply ReadVersionFile_opened. discriminate.
Qed.

Lemma ReadVersionFile_fallback_or_first_line_witness :
  ReadVersionFile (Some ("v1.2.0" ++ String CR (String LF "second line"))) "junk" 32
  = Ret (true, "1.2.0").
Proof.
  exact (proj1 (proj2 (proj2 ReadVersionFile_fallback_or_first_line))
           ("v1.2.0" ++ String CR (String LF "second line")) "junk"
           ltac:(discriminate) ltac:(simpl; lia) ltac:(reflexivity)).
Defined.

(** The claim C4 as it is written does not hold: a marker file with a line
    that is no version at all is returned as it is, not replaced by "0.0.0". *)
Lemma ReadVersionFile_malformed_not_default :
  ReadVersionFile (Some ("not a version" ++ String LF EmptyString)) "junk" 32
  = Ret (true, "not a version")
  /\ "not a version" <> "0.0.0".
Proof. split; [reflexivity|discriminate]. Qed.

(** An empty marker file leaves the caller's buffer as it was. *)
Example ReadVersionFile_empty (version : string) :
  ReadVersionFile (Some EmptyString) version 32 = Ret (true, version).
Proof. reflexivity. Qed.

Lemma update_block_with_version_file (w : World) (vf : string -> option string)
  (current_version : string) :
  update_block (with_version_file w vf) current_version = update_block w current_version.
Proof. reflexivity. Qed.

Lemma LaunchMainApp_with_version_file (w : World) (vf : string -> option string)
  (exe_path : string) :
  LaunchMainApp (with_version_file w vf) exe_path = LaunchMainApp w exe_path.
Proof. reflexivity. Qed.

Lemma WinMain_version_file (w : World) (vf vf' : string -> option string) :
  (forall path, ReadVersionFile (vf path) (stack_version w) 32
                = ReadVersionFile (vf' path) (stack_version w) 32) ->
  WinMain (with_version_file w vf) = WinMain (with_version_file w vf').
Proof.
  intros H. unfold WinMain.
  cbn [module_file_name version_file stack_version with_version_file].
  destruct (GetAppDirectory (module_file_name w)) as [app_dir|]; [|reflexivity].
  destruct (sprintf_s MAX_PATH_LEN (app_dir ++ String BACKSLASH VERSION_FILE))
    as [version_path| |]; try reflexivity.
  cbn [lift bind]. rewrite (H version_path).
  destruct (ReadVersionFile (vf' version_path) (stack_version w) 32) as [[b v]| |];
    reflexivity.
Qed.

(** C9. A marker file whose first line is longer than 31 bytes is read only
    up to its 31st byte: [fgets] stores those bytes, the version returned is
    computed from them alone, and two marker files that agree on them give
    the same run of the launcher, update decision included. *)
Theorem ReadVersionFile_first_31_bytes (f : string) :
  31 < String.length (first_line f) ->
  fgets 32 f = Some (take 31 (first_line f))
  /\ (forall version,
         ReadVersionFile (Some f) version 32
         = Ret (true, strip_leading_v (strip_line_ending (cstr (take 31 (first_line f))))))
  /\ (forall version,
         ReadVersionFile (Some f) version 32
         = ReadVersionFile (Some (take 31 (first_line f))) version 32)
  /\ (forall f' w,
         31 < String.length (first_line f') ->
         take 31 (first_line f') = take 31 (first_line f) ->
         (forall net release,
             res_bind (ReadVersionFile (Some f) (stack_version w) 32) (fun p =>
               CheckForUpdates net (snd p) release)
             = res_bind (ReadVersionFile (Some f') (stack_version w) 32) (fun p =>
               CheckForUpdates net (snd p) release))
         /\ WinMain (with_version_file w (fun _ => Some f))
            = WinMain (with_version_file w (fun _ => Some f'))).
Proof.
  intros Hlong.
  assert (Hne : forall g, 31 < String.length (first_line g) -> g <> EmptyString)
    by (intros [|c g]; simpl; [lia|discriminate]).
  assert (Hread : forall g version,
             31 < String.length (first_line g) ->
             ReadVersionFile (Some g) version 32
             = Ret (true, strip_leading_v (strip_line_ending (cstr (take 31 (first_line g)))))).
  { intros g version Hg. rewrite ReadVersionFile_opened by auto.
    simpl Nat.sub. rewrite fgets_chars_long by lia. reflexivity. }
  split; [|split; [|split]].
  - unfold fgets. destruct f as [|c f]; [simpl in Hlong; lia|].
    simpl Nat.sub. rewrite fgets_chars_long by lia. reflexivity.
  - intros version. apply Hread, Hlong.
  - intros version. rewrite Hread by exact Hlong.
    assert (Hlen : String.length (take 31 (first_line f)) = 31)
      by (apply take_length; lia).
    rewrite ReadVersionFile_opened
      by (intros E; rewrite E in Hlen; discriminate).
    simpl Nat.sub.
    assert (Hid : first_line (take 31 (first_line f)) = take 31 (first_line f))
      by (apply first_line_id, mem_char_take, first_line_no_LF).
    rewrite fgets_chars_long by (rewrite Hid; lia).
    rewrite Hid, take_take by lia. reflexivity.
  - intros f' w Hlong' Hsame.
    assert (E : forall version,
               ReadVersionFile (Some f) version 32 = ReadVersionFile (Some f') version 32)
      by (intros version; rewrite !Hread by assumption; now rewrite Hsame).
    split.
    + intros net release. now rewrite E.
    + apply WinMain_version_file. intros _. apply E.
Qed.

Lemma ReadVersionFile_first_31_bytes_witness :
  ReadVersionFile (Some (long_marker "ier-one")) "junk" 32
  = Ret (true, "1.2.3-a-very-long-build-identif")
  /\ ReadVersionFile (Some (long_marker "ier-two")) "junk" 32
     = Ret (true, "1.2.3-a-very-long-build-identif").
Proof.
  split.
  - exact (proj1 (proj2 (ReadVersionFile_first_31_bytes (long_marker "ier-one")
                           ltac:(simpl; lia))) "junk").
  - exact (proj1 (proj2 (ReadVersionFile_first_31_bytes (long_marker "ier-two")
                           ltac:(simpl; lia))) "junk").
Defined.

(** ** DownloadFile *)

Lemma written_app (path : string) (t1 t2 : list Event) :
  written path (t1 ++ t2) = written path t1 ++ written path t2.
Proof.
  induction t1 as [|e t1 IH]; [reflexivity|].
  destruct e; simpl; try exact IH.
  destruct (String.eqb path0 path); [|exact IH].
  now rewrite IH, app_assoc.
Qed.

Lemma progress_counts_app (t1 t2 : list Event) :
  progress_counts (t1 ++ t2) = (progress_counts t1 ++ progress_counts t2)%list.
Proof.
  induction t1 as [|e t1 IH]; [reflexivity|].
  destruct e; simpl; try exact IH. now rewrite IH.
Qed.

(** One iteration of the loop on a chunk that is not empty. *)
Lemma download_loop_chunk (buffer : string) (reads : list read_outcome)
  (dest_path : string) (hwnd : bool) (totalBytes : Z) :
  buffer <> EmptyString ->
  download_loop (Some buffer :: reads) dest_path hwnd totalBytes
  = let totalBytes' := ((totalBytes + Z.of_nat (String.length buffer)) mod DWORD_MAX)%Z in
    (Fwrite dest_path buffer :: (if hwnd then [SetWindowText totalBytes'] else [])
       ++ download_loop reads dest_path hwnd totalBytes')%list.
Proof.
  intros Hne. destruct buffer as [|c b]; [congruence|]. reflexivity.
Qed.

Lemma download_loop_written (reads : list read_outcome) (dest_path : string)
  (hwnd : bool) (totalBytes : Z) :
  written dest_path (download_loop reads dest_path hwnd totalBytes) = delivered reads.
Proof.
  revert totalBytes; induction reads as [|[buffer|] reads IH]; intros totalBytes;
    try reflexivity.
  destruct buffer as [|c b]; [reflexivity|].
  rewrite download_loop_chunk by discriminate.
  cbv zeta. cbn [written delivered String.length Nat.ltb Nat.leb].
  rewrite String.eqb_refl, written_app, IH.
  destruct hwnd; reflexivity.
Qed.

Lemma nondecreasing_cons (a : Z) (l : list Z) :
  Forall (fun c => (a <= c)%Z) l -> nondecreasing l -> nondecreasing (a :: l).
Proof.
  destruct l as [|b l]; [easy|]. intros HF Hl. split; [|exact Hl].
  now inversion HF.
Qed.

Lemma download_loop_counts (reads : list read_outcome) (dest_path : string)
  (hwnd : bool) (totalBytes : Z) :
  (0 <= totalBytes)%Z ->
  (totalBytes + Z.of_nat (String.length (delivered reads)) < DWORD_MAX)%Z ->
  let counts := progress_counts (download_loop reads dest_path hwnd totalBytes) in
  Forall (fun c => (totalBytes <= c)%Z) counts /\ nondecreasing counts.
Proof.
  revert totalBytes; induction reads as [|[buffer|] reads IH]; intros totalBytes H0 Hlt;
    try (split; [constructor|exact I]).
  destruct buffer as [|c b]; [split; [constructor|exact I]|].
  rewrite download_loop_chunk by discriminate. cbv zeta.
  change (delivered _) with (String c b ++ delivered reads) in Hlt.
  rewrite length_app, Nat2Z.inj_add in Hlt.
  assert (Hn : (0 < Z.of_nat (String.length (String c b)))%Z) by (simpl String.length; lia).
  set (n := Z.of_nat (String.length (String c b))) in *.
  rewrite Z.mod_small by lia.
  destruct (IH (totalBytes + n)%Z) as [HF Hnd]; [lia|lia|].
  assert (HF' : Forall (fun c0 => (totalBytes <= c0)%Z)
                  (progress_counts (download_loop reads dest_path hwnd (totalBytes + n)%Z))).
  { eapply Forall_impl; [|exact HF]. simpl; intros; lia. }
  destruct hwnd; cbn [progress_counts app].
  - split.
    + constructor; [lia|exact HF'].
    + apply nondecreasing_cons; assumption.
  - split; assumption.
Qed.

Lemma download_loop_no_progress (reads : list read_outcome) (dest_path : string)
  (totalBytes : Z) :
  progress_counts (download_loop reads dest_path false totalBytes) = [].
Proof.
  revert totalBytes; induction reads as [|[buffer|] reads IH]; intros totalBytes;
    try reflexivity.
  destruct buffer as [|c b]; [reflexivity|].
  rewrite download_loop_chunk by discriminate. cbv zeta. cbn [progress_counts app].
  apply IH.
Qed.

Lemma DownloadFile_success (net : Download) (url dest_path : string) (hwnd : bool)
  (t : list Event) :
  DownloadFile net url dest_path hwnd = (t, true) ->
  t = ([Fopen dest_path] ++ download_loop (dl_reads net) dest_path hwnd 0
         ++ [Fclose dest_path])%list.
Proof.
  unfold DownloadFile.
  destruct (dl_internet net), (dl_connect net), (dl_fopen net); simpl; congruence.
Qed.

(** C8, as the code has it. After a successful download the destination file
    holds exactly the bytes the source delivered, so N of them; the counts
    shown in the progress window never decrease as long as N is below 2^32;
    and without a window nothing is reported. *)
Theorem DownloadFile_writes_all_and_progress_monotone
  (net : Download) (url dest_path : string) (hwnd : bool) (t : list Event) :
  DownloadFile net url dest_path hwnd = (t, true) ->
  written dest_path t = delivered (dl_reads net)
  /\ ((Z.of_nat (String.length (delivered (dl_reads net))) < 2 ^ 32)%Z ->
      nondecreasing (progress_counts t))
  /\ (hwnd = false -> progress_counts t = []).
Proof.
  intros H. apply DownloadFile_success in H. subst t.
  repeat split.
  - rewrite !written_app, download_loop_written. simpl. apply app_empty_r.
  - intros Hlt. rewrite !progress_counts_app. simpl. rewrite app_nil_r.
    apply download_loop_counts; [lia|exact Hlt].
  - intros ->. rewrite !progress_counts_app. simpl. rewrite app_nil_r.
    apply download_loop_no_progress.
Qed.

Lemma DownloadFile_writes_all_and_progress_monotone_witness :
  let net := mkDownload true true true [Some "MZ"; Some "abc"; Some EmptyString] in
  let t := fst (DownloadFile net "https://x/y/app.exe" "C:/tmp/app.exe" true) in
  written "C:/tmp/app.exe" t = "MZabc" /\ progress_counts t = [2%Z; 5%Z]
  /\ nondecreasing (progress_counts t).
Proof.
  intros net t.
  destruct (DownloadFile_writes_all_and_progress_monotone net
              "https://x/y/app.exe" "C:/tmp/app.exe" true t eq_refl) as (Hw & Hm & _).
  split; [exact Hw|]. split; [reflexivity|].
  apply Hm. vm_compute. reflexivity.
Defined.

Lemma nondecreasing_tail (a : Z) (l : list Z) : nondecreasing (a :: l) -> nondecreasing l.
Proof. destruct l; simpl; tauto. Qed.

Lemma nondecreasing_app_r (l1 l2 : list Z) : nondecreasing (l1 ++ l2) -> nondecreasing l2.
Proof.
  induction l1 as [|a l1 IH]; [trivial|].
  intros H. apply IH. exact (nondecreasing_tail a _ H).
Qed.

Lemma replicate_length (n : nat) (c : ascii) : String.length (replicate n c) = n.
Proof. induction n; simpl; congruence. Qed.

Lemma full_chunk_length : Z.of_nat (String.length full_chunk) = 8192%Z.
Proof. unfold full_chunk. rewrite replicate_length, N_nat_Z. reflexivity. Qed.

Lemma full_chunk_not_empty : full_chunk <> EmptyString.
Proof.
  intros E. pose proof full_chunk_length as H. rewrite E in H. discriminate H.
Qed.

Lemma download_loop_repeat (c dest_path : string) (n : nat) (rest : list read_outcome)
  (totalBytes : Z) :
  c <> EmptyString ->
  (0 <= totalBytes < DWORD_MAX)%Z ->
  exists shown,
    progress_counts (download_loop (repeat (Some c) n ++ rest) dest_path true totalBytes)
    = (shown ++ progress_counts
         (download_loop rest dest_path true
            ((totalBytes + Z.of_nat n * Z.of_nat (String.length c)) mod DWORD_MAX)))%list.
Proof.
  intros Hc. revert totalBytes. induction n as [|n IH]; intros totalBytes Ht.
  - exists []. simpl repeat. cbn [app].
    rewrite Z.mul_0_l, Z.add_0_r, Z.mod_small by exact Ht. reflexivity.
  - cbn [repeat app]. rewrite download_loop_chunk by exact Hc. cbv zeta.
    cbn [progress_counts app].
    set (t1 := ((totalBytes + Z.of_nat (String.length c)) mod DWORD_MAX)%Z).
    destruct (IH t1) as [shown Hshown].
    { subst t1. apply Z.mod_pos_bound. reflexivity. }
    exists (t1 :: shown). rewrite Hshown. cbn [app]. do 3 f_equal.
    subst t1. rewrite Zplus_mod_idemp_l.
    replace (totalBytes + Z.of_nat (S n) * Z.of_nat (String.length c))%Z
      with (totalBytes + Z.of_nat (String.length c)
            + Z.of_nat n * Z.of_nat (String.length c))%Z
      by (rewrite Nat2Z.inj_succ; lia).
    reflexivity.
Qed.

Lemma DownloadFile_opened (reads : list read_outcome) (url dest_path : string) (hwnd : bool) :
  DownloadFile (mkDownload true true true reads) url dest_path hwnd
  = (([Fopen dest_path] ++ download_loop reads dest_path hwnd 0 ++ [Fclose dest_path])%list,
     true).
Proof. reflexivity. Qed.

(** The claim C8 as it is written does not hold: when 4 GiB arrive in full
    buffers the download succeeds and the count shown after the last buffer
    (0) is below the one shown before it (4294959104). *)
Lemma DownloadFile_progress_decreases_at_4GiB :
  snd (DownloadFile four_gib_download "https://x/y/app.exe" "C:/tmp/app.exe" true) = true
  /\ ~ nondecreasing
         (progress_counts
            (fst (DownloadFile four_gib_download "https://x/y/app.exe" "C:/tmp/app.exe" true))).
Proof.
  unfold four_gib_download. rewrite DownloadFile_opened. split; [reflexivity|].
  cbn [fst]. rewrite !progress_counts_app. unfold four_gib_reads.
  destruct (download_loop_repeat full_chunk "C:/tmp/app.exe" (N.to_nat 524286)
              [Some full_chunk; Some full_chunk] 0 full_chunk_not_empty)
    as [shown ->]; [split; reflexivity|].
  rewrite (download_loop_chunk full_chunk [Some full_chunk]) by exact full_chunk_not_empty.
  cbv zeta.
  rewrite (download_loop_chunk full_chunk []) by exact full_chunk_not_empty.
  cbv zeta.
  rewrite !full_chunk_length, N_nat_Z.
  cbn [progress_counts download_loop app]. rewrite app_nil_r.
  intros H. apply nondecreasing_app_r in H.
  vm_compute in H. destruct H as [H _]. apply H. reflexivity.
Qed.




(** ** WinMain *)

Example WinMain_installer_fails :
  WinMain (update_world [Some "MZ"; Some "payload"] only_main_app_starts)
  = ([MessageBox (update_message "1.2.0" "2.3.0") "Update Available";
      CreateWindow; ShowWindow;
      Fopen (backslash "C:" (backslash "Temp" "app-2.3.0.exe"));
      Fwrite (backslash "C:" (backslash "Temp" "app-2.3.0.exe")) "MZ";
      SetWindowText 2;
      Fwrite (backslash "C:" (backslash "Temp" "app-2.3.0.exe")) "payload";
      SetWindowText 9;
      Fclose (backslash "C:" (backslash "Temp" "app-2.3.0.exe"));
      DestroyWindow;
      CreateProcess None
        (Some (quoted (backslash "C:" (backslash "Temp" "app-2.3.0.exe")) ++ " /UPDATE /SILENT"))
        None;
      MessageBox "Failed to launch installer" "Error";
      CreateProcess
        (Some (backslash "C:" (backslash "Apps" (backslash "Workspace" "workspace.exe"))))
        None
        (Some (backslash "C:" (backslash "Apps" "Workspace")))],
     Ret 0%Z).
Proof. vm_compute. reflexivity. Qed.

Lemma sprintf_s_Ret (size : nat) (text s : string) :
  sprintf_s size text = Ret s -> s = text /\ String.length text < size.
Proof.
  unfold sprintf_s. destruct (Nat.ltb_spec (String.length text) size); [|discriminate].
  intros E; injection E as <-. auto.
Qed.

Lemma sprintf_s_fits (size : nat) (text : string) :
  String.length text < size -> sprintf_s size text = Ret text.
Proof.
  intros H. unfold sprintf_s. now apply Nat.ltb_lt in H as ->.
Qed.

Lemma sprintf_s_cases (size : nat) (text : string) :
  sprintf_s size text = Ret text \/ sprintf_s size text = InvalidParameter.
Proof. unfold sprintf_s. destruct (Nat.ltb _ _); auto. Qed.

Lemma LaunchInstaller_fits (w : World) (installer_path : string) :
  String.length installer_path < MAX_PATH_LEN ->
  LaunchInstaller w installer_path
  = ([CreateProcess None (Some (installer_command_line installer_path)) None],
     Ret (create_process w None (Some (installer_command_line installer_path)))).
Proof.
  intros H. unfold LaunchInstaller, installer_command_line.
  rewrite sprintf_s_fits; [reflexivity|].
  unfold quoted. repeat (rewrite !length_app || cbn [String.length]).
  unfold MAX_PATH_LEN in *. lia.
Qed.

Lemma main_app_block_cases (w : World) (app_dir : string) :
  main_app_block w app_dir = ([], InvalidParameter)
  \/ exists exe dir,
       let created := create_process w (Some exe) None in
       main_app_block w app_dir
       = (CreateProcess (Some exe) None (Some dir)
            :: (if created then [] else [MessageBox "Failed to launch workspace.exe" "Error"]),
          Ret (if created then 0 else 1)%Z).
Proof.
  unfold main_app_block.
  destruct (sprintf_s_cases MAX_PATH_LEN (app_dir ++ String BACKSLASH MAIN_EXE)) as [E|E].
  2:{ left. rewrite E. reflexivity. }
  right. rewrite E. apply sprintf_s_Ret in E as [_ Hlen].
  cbn [lift bind]. unfold LaunchMainApp, strcpy_s.
  apply Nat.ltb_lt in Hlen. rewrite Hlen.
  exists (app_dir ++ String BACKSLASH MAIN_EXE). eexists. cbv zeta.
  destruct (create_process w (Some (app_dir ++ String BACKSLASH MAIN_EXE)) None);
    reflexivity.
Qed.

Lemma download_loop_events (reads : list read_outcome) (dest_path : string) (hwnd : bool)
  (totalBytes : Z) :
  forallb is_download_event (download_loop reads dest_path hwnd totalBytes) = true.
Proof.
  revert totalBytes; induction reads as [|[buffer|] reads IH]; intros totalBytes;
    try reflexivity.
  destruct buffer as [|c b]; [reflexivity|].
  rewrite download_loop_chunk by discriminate. cbv zeta.
  destruct hwnd; cbn [forallb app is_download_event andb]; apply IH.
Qed.

Lemma DownloadFile_events (net : Download) (url dest_path : string) (hwnd : bool) :
  forallb is_download_event (fst (DownloadFile net url dest_path hwnd)) = true.
Proof.
  unfold DownloadFile.
  destruct (dl_internet net), (dl_connect net), (dl_fopen net); try reflexivity.
  cbn [negb fst]. rewrite !forallb_app, download_loop_events. reflexivity.
Qed.

Lemma DownloadFile_result (net : Download) (url dest_path : string) (hwnd : bool) :
  snd (DownloadFile net url dest_path hwnd)
  = dl_internet net && dl_connect net && dl_fopen net.
Proof.
  unfold DownloadFile.
  destruct (dl_internet net), (dl_connect net), (dl_fopen net); reflexivity.
Qed.

Lemma download_events_no_launch (t : list Event) :
  forallb is_download_event t = true ->
  existsb is_installer_launch t = false /\ existsb is_main_app_launch t = false
  /\ ~ In CreateWindow t
  /\ forall text caption, ~ In (MessageBox text caption) t.
Proof.
  induction t as [|e t IH]; [simpl; intuition|].
  cbn [forallb]. intros H. apply andb_true_iff in H as [He Ht].
  destruct (IH Ht) as (H1 & H2 & H3 & H4).
  destruct e; try discriminate;
    (split; [exact H1|split; [exact H2|split]];
     [intros [E|E]; [discriminate E|exact (H3 E)]
     |intros text caption [E|E]; [discriminate E|exact (H4 _ _ E)]]).
Qed.

Lemma update_block_cases (w : World) (current_version : string) :
  (exists t r,
      update_block w current_version = (t, r)
      /\ (t = [] \/ exists message, t = [MessageBox message "Update Available"])
      /\ forall code, r <> Ret (Some code))
  \/ (exists release message,
         let installer_path := temp_path w ++ filename release in
         let dl := DownloadFile (download w) (download_url release) installer_path (window w) in
         let created := create_process w None (Some (installer_command_line installer_path)) in
         CheckForUpdates (feed w) current_version release_zero = Ret (true, release)
         /\ dialog_answer w = IDYES
         /\ String.length installer_path < MAX_PATH_LEN
         /\ update_block w current_version
            = (accepted_update_trace w release message installer_path,
               Ret (if snd dl && created then Some 0%Z else None))).
Proof.
  unfold update_block.
  destruct (CheckForUpdates (feed w) current_version release_zero)
    as [[update release]| |] eqn:Hcheck;
    try (left; eexists _, _; split; [reflexivity|split; [now left|discriminate]]).
  destruct update;
    [|left; eexists _, _; split; [reflexivity|split; [now left|discriminate]]].
  cbn [lift bind]. unfold ShowUpdateDialog.
  destruct (sprintf_s_cases 512 (update_message current_version (version release))) as [E|E];
    rewrite E;
    [|left; eexists _, _; split; [reflexivity|split; [now left|discriminate]]].
  cbn [lift bind emit ret app].
  destruct (dialog_answer w =? IDYES)%Z eqn:Hans;
    [|left; eexists _, _; split; [reflexivity|split; [right; eauto|discriminate]]].
  apply Z.eqb_eq in Hans.
  destruct (sprintf_s_cases MAX_PATH_LEN (temp_path w ++ filename release)) as [E'|E'];
    rewrite E';
    [|left; eexists _, _; split; [reflexivity|split; [right; eauto|discriminate]]].
  apply sprintf_s_Ret in E' as [_ Hlen].
  right. exists release, (update_message current_version (version release)).
  cbv zeta. split; [reflexivity|]. split; [exact Hans|]. split; [exact Hlen|].
  unfold accepted_update_trace. cbn [bind].
  destruct (DownloadFile (download w) (download_url release)
              (temp_path w ++ filename release) (window w)) as [dl_t ok].
  cbn [fst snd].
  destruct ok.
  - rewrite (LaunchInstaller_fits w _ Hlen).
    destruct (create_process w None
                (Some (installer_command_line (temp_path w ++ filename release))));
      destruct (window w); cbn; rewrite ?app_nil_r; reflexivity.
  - destruct (window w); cbn; rewrite ?app_nil_r; reflexivity.
Qed.

Lemma main_app_block_no_installer (w : World) (app_dir : string) :
  existsb is_installer_launch (fst (main_app_block w app_dir)) = false
  /\ ~ In CreateWindow (fst (main_app_block w app_dir))
  /\ (snd (main_app_block w app_dir) = InvalidParameter
      \/ existsb is_main_app_launch (fst (main_app_block w app_dir)) = true).
Proof.
  destruct (main_app_block_cases w app_dir) as [E|(exe & dir & E)]; cbv zeta in E; rewrite E.
  - cbn. intuition.
  - cbn [fst snd]. destruct (create_process w (Some exe) None); cbn;
      (split; [reflexivity|split; [|now right]]); intuition discriminate.
Qed.

(** The runs of the launcher: either the download is never started, or the
    update is accepted and the trace is [accepted_update_trace], followed by
    the main-application block unless the installer was started. *)
Lemma WinMain_cases (w : World) :
  (exists t r,
      WinMain w = (t, r)
      /\ existsb is_installer_launch t = false
      /\ ~ In CreateWindow t)
  \/ (exists app_dir current_version release message,
         let installer_path := temp_path w ++ filename release in
         let dl := DownloadFile (download w) (download_url release) installer_path (window w) in
         let created := create_process w None (Some (installer_command_line installer_path)) in
         let head := accepted_update_trace w release message installer_path in
         CheckForUpdates (feed w) current_version release_zero = Ret (true, release)
         /\ dialog_answer w = IDYES
         /\ WinMain w
            = if snd dl && created then (head, Ret 0%Z)
              else ((head ++ fst (main_app_block w app_dir))%list,
                    snd (main_app_block w app_dir))).
Proof.
  unfold WinMain.
  destruct (GetAppDirectory (module_file_name w)) as [app_dir|].
  2:{ left. eexists _, _. split; [reflexivity|]. cbn. intuition discriminate. }
  destruct (sprintf_s_cases MAX_PATH_LEN (app_dir ++ String BACKSLASH VERSION_FILE)) as [E|E];
    rewrite E.
  2:{ left. eexists _, _. split; [reflexivity|]. cbn. intuition. }
  cbn [lift bind].
  destruct (ReadVersionFile (version_file w (app_dir ++ String BACKSLASH VERSION_FILE))
              (stack_version w) 32) as [[b current_version]| |].
  2,3: left; eexists _, _; (split; [reflexivity|]); cbn; intuition.
  destruct (update_block_cases w current_version)
    as [(t & r & Hu & Ht & Hr)|(release & message & Hu)].
  - left. rewrite Hu.
    destruct (main_app_block_no_installer w app_dir) as (Hi & Hw & _).
    destruct (main_app_block w app_dir) as [mt mr] eqn:Hm. cbn [fst snd] in *.
    assert (Hti : existsb is_installer_launch t = false /\ ~ In CreateWindow t).
    { destruct Ht as [->|[message ->]]; cbn; intuition discriminate. }
    destruct r as [[code|]| |].
    + exfalso. exact (Hr code eq_refl).
    + cbn [bind]. eexists _, _. split; [reflexivity|].
      rewrite ?app_nil_l, existsb_app, in_app_iff. destruct Hti as [-> Hti].
      rewrite Hi. split; [reflexivity|tauto].
    + cbn [bind]. eexists _, _. split; [reflexivity|]. rewrite ?app_nil_l. exact Hti.
    + cbn [bind]. eexists _, _. split; [reflexivity|]. rewrite ?app_nil_l. exact Hti.
  - right. cbv zeta in Hu. destruct Hu as (Hcheck & Hans & Hlen & Hu).
    exists app_dir, current_version, release, message. cbv zeta.
    split; [exact Hcheck|]. split; [exact Hans|].
    rewrite Hu. cbn [bind].
    destruct (snd (DownloadFile (download w) (download_url release)
                     (temp_path w ++ filename release) (window w))
              && create_process w None
                   (Some (installer_command_line (temp_path w ++ filename release)))).
    + cbn [ret app]. now rewrite app_nil_r.
    + destruct (main_app_block w app_dir) as [mt mr]. reflexivity.
Qed.

Lemma accepted_update_trace_split (w : World) (release : ReleaseInfo)
  (message installer_path : string) :
  let dl := DownloadFile (download w) (download_url release) installer_path (window w) in
  let command_line := installer_command_line installer_path in
  exists pre,
    existsb is_installer_launch pre = false
    /\ existsb is_main_app_launch pre = false
    /\ In CreateWindow pre
    /\ (forall text, ~ In (MessageBox text "Error") pre)
    /\ accepted_update_trace w release message installer_path
       = (pre ++ (if snd dl
                  then CreateProcess None (Some command_line) None
                         :: (if create_process w None (Some command_line) then []
                             else [MessageBox "Failed to launch installer" "Error"])
                  else [MessageBox "Failed to download update" "Error"]))%list.
Proof.
  cbv zeta. unfold accepted_update_trace.
  pose proof (DownloadFile_events (download w) (download_url release) installer_path (window w))
    as Hev.
  apply download_events_no_launch in Hev as (H1 & H2 & H3 & H4).
  set (dl_t := fst (DownloadFile (download w) (download_url release) installer_path (window w)))
    in *.
  exists (MessageBox message "Update Available" :: CreateWindow
            :: (if window w then [ShowWindow] else []) ++ dl_t
            ++ (if window w then [DestroyWindow] else []))%list.
  repeat split.
  - cbn [existsb is_installer_launch orb]. rewrite !existsb_app, H1.
    destruct (window w); reflexivity.
  - cbn [existsb is_main_app_launch orb]. rewrite !existsb_app, H2.
    destruct (window w); reflexivity.
  - right; left; reflexivity.
  - intros text [E|[E|E]]; try discriminate E.
    apply in_app_iff in E as [E|E];
      [destruct (window w); [destruct E as [E|[]]; discriminate E|destruct E]|].
    apply in_app_iff in E as [E|E]; [exact (H4 _ _ E)|].
    destruct (window w); [destruct E as [E|[]]; discriminate E|destruct E].
  - cbn [app]. do 2 f_equal. now rewrite <- !List.app_assoc.
Qed.




(** C2, as the code has it. A download fails exactly when the session, the
    URL or the destination file cannot be opened, whatever its reads do, so a
    read that fails in the middle of the transfer ends the loop like the end
    of the data and the download succeeds.  In a run that starts the
    download: if it fails, "Failed to download update" is shown, no installer
    is started and the run goes on to the main-application launch (unless the
    path of the main executable does not fit its buffer); if it succeeds, the
    installer launch is attempted. *)
Theorem DownloadFile_failure_routes_to_main_app :
  (forall net url dest_path hwnd,
      snd (DownloadFile net url dest_path hwnd)
      = dl_internet net && dl_connect net && dl_fopen net)
  /\ (forall w t r,
         WinMain w = (t, r) ->
         In CreateWindow t ->
         let opened :=
           dl_internet (download w) && dl_connect (download w) && dl_fopen (download w) in
         (opened = false ->
          In (MessageBox "Failed to download update" "Error") t
          /\ existsb is_installer_launch t = false
          /\ (r = InvalidParameter \/ existsb is_main_app_launch t = true))
         /\ (opened = true -> existsb is_installer_launch t = true)).
Proof.
  split; [exact DownloadFile_result|].
  intros w t r HW Hwin. cbv zeta.
  destruct (WinMain_cases w)
    as [(t0 & r0 & E & _ & Hno)|(app_dir & cur & release & message & Hc)].
  { rewrite E in HW. injection HW as <- <-. contradiction. }
  cbv zeta in Hc. destruct Hc as (_ & _ & E). rewrite E in HW. clear E.
  destruct (accepted_update_trace_split w release message (temp_path w ++ filename release))
    as (pre & Hpi & Hpm & _ & _ & Hsplit).
  cbv zeta in Hsplit. rewrite Hsplit in HW. clear Hsplit.
  rewrite DownloadFile_result in HW.
  destruct (main_app_block_no_installer w app_dir) as (Hmi & _ & Hmm).
  split; intros Hopened; rewrite Hopened in HW; cbn [andb] in HW.
  - injection HW as <- <-. repeat split.
    + apply in_app_iff. left. apply in_app_iff. right. now left.
    + rewrite !existsb_app, Hpi, Hmi. reflexivity.
    + destruct Hmm as [Hmm|Hmm]; [now left|right].
      rewrite !existsb_app, Hmm. apply orb_true_r.
  - destruct (create_process w None _); injection HW as <- <-;
      rewrite !existsb_app; cbn; rewrite ?orb_true_r; reflexivity.
Qed.

Lemma DownloadFile_failure_routes_to_main_app_witness :
  let t := fst (WinMain unwritable_world) in
  In (MessageBox "Failed to download update" "Error") t
  /\ existsb is_installer_launch t = false
  /\ (snd (WinMain unwritable_world) = InvalidParameter
      \/ existsb is_main_app_launch t = true).
Proof.
  intros t.
  apply (proj2 DownloadFile_failure_routes_to_main_app unwritable_world
           t (snd (WinMain unwritable_world))).
  - vm_compute. reflexivity.
  - vm_compute. tauto.
  - vm_compute. reflexivity.
Defined.

(** The claim C2 as it is written does not hold: when the second read of a
    download fails, after the connection and the destination file were
    opened and a first buffer was written, the download reports success and
    the run starts the installer, not the main application. *)
Lemma DownloadFile_read_failure_reports_success :
  let w := update_world [Some "MZ"; None; Some "payload"] all_start in
  snd (DownloadFile (download w) "https://x/y/app-2.3.0.exe"
         (backslash "C:" (backslash "Temp" "app-2.3.0.exe")) true) = true
  /\ existsb is_installer_launch (fst (WinMain w)) = true
  /\ existsb is_main_app_launch (fst (WinMain w)) = false.
Proof. vm_compute. repeat split; reflexivity. Qed.

(** ** CheckForUpdates *)

Example parse_response_long_first :
  parse_response feed_long_first release_zero
  = Ret (true, mkRelease "2.3.0" "https://x/y/app-2.3.0.exe" "app-2.3.0.exe").
Proof. vm_compute. reflexivity. Qed.

Example parse_response_without_tag :
  parse_response feed_without_tag release_zero
  = Ret (true, mkRelease EmptyString "https://x/y/app-2.3.0.exe" "app-2.3.0.exe").
Proof. vm_compute. reflexivity. Qed.

Lemma prefix_app_r (k v t : string) :
  String.prefix k v = true -> String.prefix k (v ++ t) = true.
Proof.
  revert v; induction k as [|a k IH]; intros v;
    [intros _; destruct (v ++ t); reflexivity|].
  destruct v as [|b v]; simpl; [discriminate|].
  destruct (ascii_dec a b); [apply IH|discriminate].
Qed.

Lemma prefix_empty (k : string) : k <> EmptyString -> String.prefix k EmptyString = false.
Proof. destruct k; [congruence|reflexivity]. Qed.

Lemma contains_app_r (k v t : string) : contains k v = true -> contains k (v ++ t) = true.
Proof.
  induction v as [|a v IH].
  - cbn [contains]. rewrite orb_false_r. intros H.
    destruct k; [|discriminate]. now destruct t.
  - change (String a v ++ t) with (String a (v ++ t)). cbn [contains].
    intros H. apply orb_true_iff in H as [H|H].
    + change (String a (v ++ t)) with (String a v ++ t).
      now rewrite (prefix_app_r _ _ t H).
    + rewrite (IH H). apply orb_true_r.
Qed.

Lemma strstr_contains (s k : string) :
  match strstr s k with
  | Some _ => contains k s = true
  | None => contains k s = false
  end.
Proof.
  induction s as [|a s IH]; cbn [strstr contains].
  - destruct (String.prefix k EmptyString); reflexivity.
  - destruct (String.prefix k (String a s)); [reflexivity|exact IH].
Qed.

Lemma strstr_occurrences (k s : string) :
  k <> EmptyString ->
  match strstr s k with
  | Some bd =>
      String.length bd <= String.length s
      /\ bd <> EmptyString
      /\ occurrences k s = bd :: occurrences k (ptr_inc bd)
  | None => occurrences k s = []
  end.
Proof.
  intros Hk. induction s as [|a s IH]; cbn [strstr occurrences].
  - rewrite prefix_empty by exact Hk. reflexivity.
  - destruct (String.prefix k (String a s)) eqn:Hp.
    + repeat split; [lia|discriminate].
    + cbn [app]. destruct (strstr s k) as [bd|]; [|exact IH].
      destruct IH as (Hlen & Hne & Hocc).
      repeat split; [cbn [String.length]; lia|exact Hne|exact Hocc].
Qed.

Lemma strchr_length (s : string) (c : ascii) (r : string) :
  strchr s c = Some r -> String.length r <= String.length s /\ r = String c (ptr_inc r).
Proof.
  induction s as [|a s IH]; simpl; [discriminate|].
  destruct (Ascii.eqb_spec a c) as [->|Hac].
  - intros E; injection E as <-. simpl. split; [lia|reflexivity].
  - intros E. destruct (IH E). split; [lia|assumption].
Qed.

(** [split_at] in terms of the pointer [strchr] returns. *)
Lemma split_at_strchr (c : ascii) (s : string) :
  split_at c s
  = match strchr s c with
    | Some r => Some (take (ptr_diff r s) s, ptr_inc r)
    | None => None
    end.
Proof.
  unfold ptr_diff. induction s as [|a s IH]; [reflexivity|].
  simpl split_at. simpl strchr.
  destruct (Ascii.eqb a c).
  - simpl. now rewrite Nat.sub_diag.
  - rewrite IH. destruct (strchr s c) as [r|] eqn:E; [|reflexivity].
    apply strchr_length in E as [Hlen _].
    replace (String.length (String a s) - String.length r)
      with (S (String.length s - String.length r)) by (cbn [String.length]; lia).
    reflexivity.
Qed.

Lemma split_at_Some (c : ascii) (s before after : string) :
  split_at c s = Some (before, after) ->
  s = before ++ String c after /\ mem_char c before = false.
Proof.
  revert before; induction s as [|a s IH]; intros before; simpl; [discriminate|].
  destruct (Ascii.eqb_spec a c) as [->|Hac].
  - intros E; injection E as <- <-. auto.
  - destruct (split_at c s) as [[b a']|]; [|discriminate].
    intros E; injection E as <- <-. destruct (IH b eq_refl) as [-> Hb].
    simpl. split; [reflexivity|]. rewrite Hb.
    destruct (Ascii.eqb_spec a c); [contradiction|reflexivity].
Qed.

Lemma quoted_value_from_Some (occ value from_value : string) :
  quoted_value_from occ = Some (value, from_value) ->
  exists rest, from_value = value ++ String DQUOTE rest /\ mem_char DQUOTE value = false.
Proof.
  unfold quoted_value_from.
  destruct (split_at ":"%char occ) as [[b1 a1]|]; [|discriminate].
  destruct (split_at DQUOTE a1) as [[b2 a2]|]; [|discriminate].
  destruct (split_at DQUOTE a2) as [[v rest]|] eqn:E; [|discriminate].
  intros H; injection H as <- <-. exists rest. apply split_at_Some, E.
Qed.

(** The scan of the source for a quoted value, and [quoted_value_from]. *)
Lemma quoted_value_from_strchr (p : string) :
  quoted_value_from p
  = match strchr p ":"%char with
    | Some start =>
        match strchr start DQUOTE with
        | Some start =>
            match strchr (ptr_inc start) DQUOTE with
            | Some end_ =>
                Some (take (ptr_diff end_ (ptr_inc start)) (ptr_inc start), ptr_inc start)
            | None => None
            end
        | None => None
        end
    | None => None
    end.
Proof.
  unfold quoted_value_from. rewrite split_at_strchr.
  destruct (strchr p ":"%char) as [s1|] eqn:E1; [|reflexivity].
  apply strchr_length in E1 as [_ E1]. rewrite E1 at 2.
  change (strchr (String ":"%char (ptr_inc s1)) DQUOTE) with (strchr (ptr_inc s1) DQUOTE).
  rewrite split_at_strchr.
  destruct (strchr (ptr_inc s1) DQUOTE) as [s2|]; [|reflexivity].
  rewrite split_at_strchr.
  destruct (strchr (ptr_inc s2) DQUOTE) as [e|]; reflexivity.
Qed.

Lemma strncpy_s_value (size : nat) (start end_ : string) :
  strchr start DQUOTE = Some end_ ->
  ptr_diff end_ start < size ->
  strncpy_s size start (ptr_diff end_ start) = Ret (take (ptr_diff end_ start) start)
  /\ String.length (take (ptr_diff end_ start) start) = ptr_diff end_ start.
Proof.
  intros E Hlt. apply strchr_length in E as [Hlen _].
  assert (Hl : String.length (take (ptr_diff end_ start) start) = ptr_diff end_ start)
    by (apply take_length; unfold ptr_diff; lia).
  split; [|exact Hl]. unfold strncpy_s. rewrite Hl.
  now apply Nat.ltb_lt in Hlt as ->.
Qed.

(** The body of the asset loop, in terms of the quoted value: it takes the
    value when ".exe" occurs anywhere from the value's start on and the
    value is shorter than [download_url]. *)
Lemma exe_asset_spec (occ : string) (release : ReleaseInfo) :
  exe_asset occ release
  = match quoted_value_from occ with
    | Some (value, from_value) =>
        if contains EXE from_value && Nat.ltb (String.length value) DOWNLOAD_URL_SIZE
        then store_url release value
        else Ret None
    | None => Ret None
    end.
Proof.
  rewrite quoted_value_from_strchr. unfold exe_asset.
  destruct (strchr occ ":"%char) as [s1|]; [|reflexivity].
  destruct (strchr s1 DQUOTE) as [s2|]; [|reflexivity].
  destruct (strchr (ptr_inc s2) DQUOTE) as [e|] eqn:Ee; [|reflexivity].
  pose proof (strstr_contains (ptr_inc s2) EXE) as Hc.
  destruct (strstr (ptr_inc s2) EXE); rewrite Hc; [|reflexivity].
  cbn [andb].
  destruct (Nat.ltb_spec (ptr_diff e (ptr_inc s2)) DOWNLOAD_URL_SIZE) as [Hlt|Hge].
  - destruct (strncpy_s_value DOWNLOAD_URL_SIZE _ _ Ee Hlt) as [-> Hl].
    rewrite Hl. apply Nat.ltb_lt in Hlt as ->. reflexivity.
  - assert (Hl : String.length (take (ptr_diff e (ptr_inc s2)) (ptr_inc s2))
                 = ptr_diff e (ptr_inc s2)).
    { apply take_length. apply strchr_length in Ee as [Hlen _]. unfold ptr_diff. lia. }
    rewrite Hl. apply Nat.ltb_ge in Hge as ->. reflexivity.
Qed.

Lemma key_not_empty : BROWSER_DOWNLOAD_URL_KEY <> EmptyString.
Proof. discriminate. Qed.

Lemma tag_key_not_empty : TAG_NAME_KEY <> EmptyString.
Proof. discriminate. Qed.

(** The loop visits the occurrences of the key in order, and its budget is
    enough. *)
Lemma find_exe_asset_scan (fuel : nat) (s : string) (release : ReleaseInfo) :
  String.length s < fuel ->
  find_exe_asset fuel (strstr s BROWSER_DOWNLOAD_URL_KEY) release
  = scan_occurrences (occurrences BROWSER_DOWNLOAD_URL_KEY s) release.
Proof.
  revert s; induction fuel as [|fuel IH]; intros s Hfuel; [lia|].
  pose proof (strstr_occurrences BROWSER_DOWNLOAD_URL_KEY s key_not_empty) as Hocc.
  destruct (strstr s BROWSER_DOWNLOAD_URL_KEY) as [bd|].
  - destruct Hocc as (Hlen & Hne & ->). cbn [find_exe_asset scan_occurrences].
    destruct (exe_asset bd release) as [[r|]| |]; cbn [res_bind]; try reflexivity.
    apply IH. destruct bd as [|a bd]; [congruence|]. cbn [ptr_inc String.length] in *. lia.
  - rewrite Hocc. reflexivity.
Qed.

Lemma strrchr_spec (s : string) (c : ascii) :
  match strrchr s c with
  | Some r => exists before, s = before ++ r /\ r = String c (ptr_inc r)
                             /\ mem_char c (ptr_inc r) = false
  | None => mem_char c s = false
  end.
Proof.
  induction s as [|a s IH]; [reflexivity|].
  cbn [strrchr mem_char].
  destruct (strrchr s c) as [r|].
  - destruct IH as (before & -> & Hr & Hm). exists (String a before). auto.
  - rewrite IH, orb_false_r. destruct (Ascii.eqb_spec a c) as [->|Hac]; [|reflexivity].
    exists EmptyString. auto.
Qed.

Lemma store_url_cases (release : ReleaseInfo) (url : string) :
  (store_url release url = InvalidParameter
   /\ exists before base,
        url = before ++ String "/"%char base
        /\ mem_char "/"%char base = false
        /\ FILENAME_SIZE <= String.length base)
  \/ (exists r, store_url release url = Ret (Some r) /\ stored release url r).
Proof.
  unfold store_url, stored.
  pose proof (strrchr_spec url "/"%char) as H.
  destruct (strrchr url "/"%char) as [f|].
  - destruct H as (before & Hurl & Hf & Hm). rewrite Hf in Hurl.
    unfold strcpy_s.
    destruct (Nat.ltb_spec (String.length (ptr_inc f)) FILENAME_SIZE) as [Hlt|Hge].
    + right. eexists. split; [reflexivity|]. cbn. repeat split. right. eauto.
    + left. split; [reflexivity|]. eauto.
  - right. eexists. split; [reflexivity|]. cbn. auto.
Qed.

Lemma scan_occurrences_true (occs : list string) (release r : ReleaseInfo) (b : bool) :
  scan_occurrences occs release = Ret (b, r) ->
  if b then exists occ, In occ occs /\ exe_asset occ release = Ret (Some r)
  else r = release.
Proof.
  induction occs as [|occ occs IH]; cbn [scan_occurrences].
  - intros E; injection E as <- <-. reflexivity.
  - destruct (exe_asset occ release) as [[r'|]| |] eqn:Ea; cbn [res_bind];
      try discriminate.
    + intros E; injection E as <- <-. exists occ. split; [now left|exact Ea].
    + intros E. specialize (IH E). destruct b; [|exact IH].
      destruct IH as (occ' & Hin & He). exists occ'. split; [now right|exact He].
Qed.

Lemma scan_occurrences_not_OutOfFuel (occs : list string) (release : ReleaseInfo) :
  scan_occurrences occs release <> OutOfFuel.
Proof.
  induction occs as [|occ occs IH]; cbn [scan_occurrences]; [discriminate|].
  rewrite exe_asset_spec.
  destruct (quoted_value_from occ) as [[value from_value]|]; cbn [res_bind]; [|exact IH].
  destruct (contains EXE from_value && _); cbn [res_bind]; [|exact IH].
  destruct (store_url_cases release value) as [[-> _]|(r & -> & _)]; discriminate.
Qed.

(** The tag scan, in terms of the quoted value of the first [tag_name]. *)
Lemma parse_tag_name_spec (doc : string) (release : ReleaseInfo) :
  parse_tag_name doc release
  = Ret (set_version release (tag_version doc (version release))).
Proof.
  assert (Hid : set_version release (version release) = release) by now destruct release.
  unfold parse_tag_name, tag_version.
  pose proof (strstr_occurrences TAG_NAME_KEY doc tag_key_not_empty) as Hocc.
  destruct (strstr doc TAG_NAME_KEY) as [tag|].
  2:{ rewrite Hocc. cbn [hd_error]. now rewrite Hid. }
  destruct Hocc as (_ & _ & ->). cbn [hd_error].
  rewrite quoted_value_from_strchr.
  destruct (strchr tag ":"%char) as [s1|]; [|now rewrite Hid].
  destruct (strchr s1 DQUOTE) as [s2|]; [|now rewrite Hid].
  destruct (strchr (ptr_inc s2) DQUOTE) as [e|] eqn:Ee; [|now rewrite Hid].
  assert (Hl : String.length (take (ptr_diff e (ptr_inc s2)) (ptr_inc s2))
               = ptr_diff e (ptr_inc s2)).
  { apply take_length. apply strchr_length in Ee as [Hlen _]. unfold ptr_diff. lia. }
  rewrite Hl.
  destruct (Nat.ltb_spec (ptr_diff e (ptr_inc s2)) VERSION_SIZE) as [Hlt|Hge];
    [|now rewrite Hid].
  destruct (strncpy_s_value VERSION_SIZE _ _ Ee Hlt) as [-> _].
  cbn [res_bind]. now rewrite strip_v_spec.
Qed.

Lemma parse_response_scan (data : string) (release : ReleaseInfo) :
  parse_response data release
  = scan_occurrences (occurrences BROWSER_DOWNLOAD_URL_KEY (cstr data))
      (set_version release (tag_version (cstr data) (version release))).
Proof.
  unfold parse_response. cbv zeta. rewrite parse_tag_name_spec. cbn [res_bind].
  apply find_exe_asset_scan. lia.
Qed.


Lemma contains_value_from (occ value from_value : string) :
  quoted_value_from occ = Some (value, from_value) ->
  contains EXE value = true -> contains EXE from_value = true.
Proof.
  intros Hq Hc. apply quoted_value_from_Some in Hq as (rest & -> & _).
  now apply contains_app_r.
Qed.

(** The test of line 137 in terms of the quoted value: a value that fits
    [download_url] is taken as soon as ".exe" occurs anywhere from its start
    to the end of the buffer, whether or not the value itself contains it. *)
Lemma exe_asset_test_unbounded (occ value from_value : string) (release : ReleaseInfo) :
  quoted_value_from occ = Some (value, from_value) ->
  contains EXE from_value = true ->
  String.length value < DOWNLOAD_URL_SIZE ->
  exe_asset occ release = store_url release value.
Proof.
  intros Hq Hc Hlen. rewrite exe_asset_spec, Hq, Hc.
  now apply Nat.ltb_lt in Hlen as ->.
Qed.

(** C6. The code does not do what the claim says. On a feed that lists an
    archive before the installer, the first occurrence whose value contains
    ".exe" is the installer's, yet the scan takes the archive: the test of
    line 137 finds the ".exe" of the later URL.  On a feed whose only asset is
    an archive and whose text mentions ".exe" further on, no occurrence has a
    value with ".exe", yet the archive is taken as the asset. *)
Theorem parse_response_takes_non_exe_value :
  (first_exe_asset feed_zip_first = Some "https://x/y/app-2.3.0.exe"
   /\ parse_response feed_zip_first release_zero
      = Ret (true, mkRelease "2.3.0" "https://x/y/app-2.3.0.zip" "app-2.3.0.zip"))
  /\ (first_exe_asset feed_zip_only = None
      /\ parse_response feed_zip_only release_zero
         = Ret (true, mkRelease "2.3.0" "https://x/y/app-2.3.0.zip" "app-2.3.0.zip")).
Proof. vm_compute. repeat split; reflexivity. Qed.

(** The guard of line 139: when the first asset URL with ".exe" is 512
    bytes long or longer, the scan passes over it and takes a later one. *)
Example parse_response_skips_long_url :
  first_exe_asset feed_long_first = Some long_url
  /\ parse_response feed_long_first release_zero
     = Ret (true, mkRelease "2.3.0" "https://x/y/app-2.3.0.exe" "app-2.3.0.exe")
  /\ long_url <> "https://x/y/app-2.3.0.exe".
Proof. vm_compute. repeat split; try reflexivity. discriminate. Qed.




(** C7. A feed whose first [tag_name] has the quoted value v2.3.0 and whose
    only [browser_download_url] has the quoted value
    https://x/y/app-2.3.0.exe yields version 2.3.0, that URL, and the file
    name app-2.3.0.exe. *)
Theorem parse_response_v2_3_0 (data : string) (release : ReleaseInfo) :
  (exists tag from_value,
      hd_error (occurrences TAG_NAME_KEY (cstr data)) = Some tag
      /\ quoted_value_from tag = Some ("v2.3.0", from_value)) ->
  (exists occ from_value,
      occurrences BROWSER_DOWNLOAD_URL_KEY (cstr data) = [occ]
      /\ quoted_value_from occ = Some ("https://x/y/app-2.3.0.exe", from_value)) ->
  parse_response data release
  = Ret (true, mkRelease "2.3.0" "https://x/y/app-2.3.0.exe" "app-2.3.0.exe").
Proof.
  intros (tag & tfrom & Htag & Htq) (occ & ofrom & Hocc & Hoq).
  rewrite parse_response_scan, Hocc. unfold tag_version. rewrite Htag, Htq.
  cbn [scan_occurrences]. rewrite exe_asset_spec, Hoq.
  rewrite (contains_value_from _ _ _ Hoq eq_refl).
  reflexivity.
Qed.

Lemma parse_response_v2_3_0_witness :
  parse_response feed_2_3_0 release_zero
  = Ret (true, mkRelease "2.3.0" "https://x/y/app-2.3.0.exe" "app-2.3.0.exe").
Proof.
  apply parse_response_v2_3_0.
  - eexists _, _. split; vm_compute; reflexivity.
  - eexists _, _. split; vm_compute; reflexivity.
Defined.

(** The budget of the asset loop is never used up: a response is parsed to
    a result, or the process ends in the invalid-parameter handler. *)
Lemma parse_response_not_OutOfFuel (data : string) (release : ReleaseInfo) :
  parse_response data release <> OutOfFuel.
Proof. rewrite parse_response_scan. apply scan_occurrences_not_OutOfFuel. Qed.

Lemma CheckForUpdates_not_OutOfFuel (net : Feed) (current_version : string)
  (release : ReleaseInfo) :
  CheckForUpdates net current_version release <> OutOfFuel.
Proof.
  unfold CheckForUpdates, fetchLatestRelease.
  destruct net as [| |[data|]]; try discriminate.
  destruct (Nat.ltb 0 (String.length data)); [|discriminate].
  pose proof (parse_response_not_OutOfFuel data release) as H.
  destruct (parse_response data release) as [[b r]| |]; cbn [res_bind];
    [discriminate|discriminate|congruence].
Qed.

(** ** Runs on concrete inputs *)

Example ReadVersionFile_missing :
  ReadVersionFile None "junk" 32 = Ret (false, "0.0.0").
Proof. reflexivity. Qed.

Example ReadVersionFile_v_crlf :
  ReadVersionFile (Some ("v1.2.0" ++ String CR (String LF "second line"))) "junk" 32
  = Ret (true, "1.2.0").
Proof. reflexivity. Qed.

Example CheckForUpdates_2_3_0 :
  CheckForUpdates (FeedRead (Some feed_2_3_0)) "1.2.0" release_zero
  = Ret (true, mkRelease "2.3.0" "https://x/y/app-2.3.0.exe" "app-2.3.0.exe").
Proof. reflexivity. Qed.

(** The user declines: the main application is started, nothing is
    downloaded, and the exit code is 0. *)
Example WinMain_declined :
  WinMain (mkWorld (backslash "C:" (backslash "Apps" "launcher.exe"))
                   (fun _ => Some "1.2.0") EmptyString (FeedRead (Some feed_2_3_0))
                   7 (backslash "C:" (backslash "Temp" EmptyString)) true
                   (mkDownload true true true [Some "MZ"]) all_start)
  = ([MessageBox (update_message "1.2.0" "2.3.0") "Update Available";
      CreateProcess (Some (backslash "C:" (backslash "Apps" "workspace.exe"))) None
                    (Some (backslash "C:" "Apps"))],
     Ret 0%Z).
Proof. vm_compute. reflexivity. Qed.

(** * Further properties of the launcher *)

(** ** GetAppDirectory and LaunchMainApp *)

Lemma strrchr_last (before base : string) (c : ascii) :
  mem_char c base = false ->
  strrchr (before ++ String c base) c = Some (String c base).
Proof.
  intros Hb.
  assert (Hnone : strrchr base c = None).
  { pose proof (strrchr_spec base c) as H. destruct (strrchr base c) as [r|]; [|reflexivity].
    destruct H as (b & -> & Hr & _). rewrite Hr, mem_char_app in Hb. cbn [mem_char] in Hb.
    rewrite Ascii.eqb_refl in Hb. cbn [orb] in Hb. rewrite orb_true_r in Hb. discriminate. }
  induction before as [|a before IH].
  - cbn [append strrchr]. rewrite Hnone, Ascii.eqb_refl. reflexivity.
  - change (String a before ++ String c base) with (String a (before ++ String c base)).
    cbn [strrchr]. now rewrite IH.
Qed.

Lemma strrchr_none (s : string) (c : ascii) : mem_char c s = false -> strrchr s c = None.
Proof.
  intros Hs. pose proof (strrchr_spec s c) as H.
  destruct (strrchr s c) as [r|]; [|reflexivity].
  destruct H as (b & -> & Hr & _). rewrite Hr, mem_char_app in Hs. cbn [mem_char] in Hs.
  rewrite Ascii.eqb_refl in Hs. cbn [orb] in Hs. rewrite orb_true_r in Hs. discriminate.
Qed.

(** The text before the last [c] of a string, as the source cuts it. *)
Lemma cut_at_last (before base : string) (c : ascii) :
  take (ptr_diff (String c base) (before ++ String c base)) (before ++ String c base) = before.
Proof.
  unfold ptr_diff. rewrite length_app.
  replace (String.length before + String.length (String c base) - String.length (String c base))
    with (String.length before) by lia.
  apply take_app_exact.
Qed.

(** X1. GetAppDirectory fails exactly when GetModuleFileNameA stores
    nothing; for a module path [dir\file] it gives [dir], the text before the
    last backslash, and a path without a backslash is given back whole. *)
Theorem GetAppDirectory_dirname :
  (forall buffer, GetAppDirectory buffer = None <-> buffer = EmptyString)
  /\ (forall dir file,
         mem_char BACKSLASH file = false ->
         GetAppDirectory (dir ++ String BACKSLASH file) = Some dir)
  /\ (forall buffer,
         buffer <> EmptyString ->
         mem_char BACKSLASH buffer = false ->
         GetAppDirectory buffer = Some buffer).
Proof.
  split; [|split].
  - intros buffer. unfold GetAppDirectory. destruct buffer as [|a b].
    + split; reflexivity.
    + cbn [String.length Nat.eqb]. split; [|discriminate].
      destruct (strrchr (String a b) BACKSLASH); discriminate.
  - intros dir file Hfile. unfold GetAppDirectory.
    rewrite length_app. cbn [String.length].
    replace (String.length dir + S (String.length file)) with
      (S (String.length dir + String.length file)) by lia.
    cbn [Nat.eqb]. rewrite strrchr_last by exact Hfile. now rewrite cut_at_last.
  - intros buffer Hne Hno. unfold GetAppDirectory.
    destruct buffer as [|a b]; [congruence|]. cbn [String.length Nat.eqb].
    now rewrite strrchr_none.
Qed.

Lemma GetAppDirectory_dirname_witness :
  GetAppDirectory (backslash "C:" (backslash "Apps" "launcher.exe"))
  = Some (backslash "C:" "Apps").
Proof.
  exact (proj1 (proj2 GetAppDirectory_dirname) (backslash "C:" "Apps") "launcher.exe"
           ltac:(reflexivity)).
Defined.

(** ** The runs of WinMain *)

Lemma update_path_trace (w : World) (current_version : string) (t t' : list Event)
  (started : bool) :
  t = t' -> update_path w current_version t' started -> update_path w current_version t started.
Proof. now intros ->. Qed.

Lemma update_block_path (w : World) (current_version : string) :
  match update_block w current_version with
  | (t, Ret (Some code)) => code = 0%Z /\ update_path w current_version t true
  | (t, Ret None) => update_path w current_version t false
  | (t, InvalidParameter) =>
      t = []
      \/ exists release,
           CheckForUpdates (feed w) current_version release_zero = Ret (true, release)
           /\ dialog_answer w = IDYES
           /\ t = [MessageBox (update_message current_version (version release))
                              "Update Available"]
  | (t, OutOfFuel) => False
  end.
Proof.
  unfold update_block.
  pose proof (CheckForUpdates_not_OutOfFuel (feed w) current_version release_zero) as Hfuel.
  destruct (CheckForUpdates (feed w) current_version release_zero)
    as [[update release]| |] eqn:Hcheck; [|now left|congruence].
  destruct update; [|exact (path_no_update w current_version release Hcheck)].
  cbn [lift bind]. unfold ShowUpdateDialog.
  destruct (sprintf_s_cases 512 (update_message current_version (version release))) as [E|E];
    rewrite E; [|now left].
  cbn [lift bind emit ret app].
  destruct (dialog_answer w =? IDYES)%Z eqn:Hans.
  2:{ apply Z.eqb_neq in Hans. exact (path_declined w current_version release Hcheck Hans). }
  apply Z.eqb_eq in Hans.
  destruct (sprintf_s_cases MAX_PATH_LEN (temp_path w ++ filename release)) as [E'|E'];
    rewrite E'; [|right; eauto].
  apply sprintf_s_Ret in E' as [_ Hlen]. cbn [bind].
  destruct (DownloadFile (download w) (download_url release)
              (temp_path w ++ filename release) (window w)) as [dl_t ok] eqn:Hdl.
  assert (Hfst : fst (DownloadFile (download w) (download_url release)
                        (temp_path w ++ filename release) (window w)) = dl_t)
    by now rewrite Hdl.
  assert (Hsnd : snd (DownloadFile (download w) (download_url release)
                        (temp_path w ++ filename release) (window w)) = ok)
    by now rewrite Hdl.
  destruct ok.
  - rewrite (LaunchInstaller_fits w _ Hlen).
    destruct (create_process w None
                (Some (installer_command_line (temp_path w ++ filename release))))
      eqn:Hcreated.
    + assert (P := path_installer_started w current_version release Hcheck Hans Hsnd Hcreated).
      cbv zeta in P. unfold download_window_trace in P. rewrite Hfst in P.
      destruct (window w); cbn in *; rewrite <- ?List.app_assoc in P;
        (split; [reflexivity|]); rewrite ?app_nil_r; exact P.
    + assert (P := path_installer_failed w current_version release Hcheck Hans Hsnd Hcreated).
      cbv zeta in P. unfold download_window_trace in P. rewrite Hfst in P.
      destruct (window w); cbn in *; rewrite <- ?List.app_assoc in P;
        rewrite ?app_nil_r; exact P.
  - assert (P := path_download_failed w current_version release Hcheck Hans Hsnd).
    cbv zeta in P. unfold download_window_trace in P. rewrite Hfst in P.
    destruct (window w); cbn in *; rewrite <- ?List.app_assoc in P;
      rewrite ?app_nil_r; exact P.
Qed.

Lemma main_app_block_explicit (w : World) (app_dir : string) :
  let exe_path := app_dir ++ String BACKSLASH MAIN_EXE in
  let created := create_process w (Some exe_path) None in
  main_app_block w app_dir
  = if Nat.ltb (String.length exe_path) MAX_PATH_LEN
    then (CreateProcess (Some exe_path) None (Some app_dir)
            :: (if created then [] else [MessageBox "Failed to launch workspace.exe" "Error"]),
          Ret (if created then 0 else 1)%Z)
    else ([], InvalidParameter).
Proof.
  cbv zeta. unfold main_app_block, sprintf_s at 1.
  destruct (Nat.ltb (String.length (app_dir ++ String BACKSLASH MAIN_EXE)) MAX_PATH_LEN)
    eqn:Hfit; [|reflexivity].
  cbn [lift bind]. unfold LaunchMainApp, strcpy_s. rewrite Hfit. cbn [lift bind].
  rewrite (strrchr_last app_dir MAIN_EXE BACKSLASH eq_refl), cut_at_last.
  cbn [emit ret bind app].
  destruct (create_process w (Some (app_dir ++ String BACKSLASH MAIN_EXE)) None); reflexivity.
Qed.

Lemma ReadVersionFile_not_OutOfFuel (file : option string) (version : string) (size : nat) :
  ReadVersionFile file version size <> OutOfFuel.
Proof.
  unfold ReadVersionFile, strcpy_s. destruct file as [f|].
  - destruct (fgets size f); discriminate.
  - destruct (Nat.ltb _ size); discriminate.
Qed.

(** X2. Every run of WinMain is a path of the launcher's state machine:
    it ends with the error box for the application directory; or with the
    start of the installer after an accepted and successful download; or,
    after no update, a declined update, a failed download or a failed
    installer start, with the attempt to start the main application from the
    launcher's directory; or in the invalid-parameter handler when a path or
    message does not fit its buffer. *)
Theorem WinMain_follows_state_machine (w : World) (t : list Event) (r : res Z) :
  WinMain w = (t, r) -> launcher_run w t r.
Proof.
  unfold WinMain.
  destruct (GetAppDirectory (module_file_name w)) as [app_dir|] eqn:Hdir.
  2:{ intros E; injection E as <- <-. now constructor. }
  destruct (sprintf_s_cases MAX_PATH_LEN (app_dir ++ String BACKSLASH VERSION_FILE)) as [E|E];
    rewrite E.
  2:{ intros H; injection H as <- <-. apply (run_invalid_parameter w app_dir); auto. }
  cbn [lift bind]. fold (local_version w app_dir).
  pose proof (ReadVersionFile_not_OutOfFuel
                (version_file w (app_dir ++ String BACKSLASH VERSION_FILE))
                (stack_version w) 32) as Hfuel.
  fold (local_version w app_dir) in Hfuel.
  destruct (local_version w app_dir) as [[opened current_version]| |] eqn:Hlocal;
    [| intros H; injection H as <- <-; apply (run_invalid_parameter w app_dir); auto
     | congruence].
  pose proof (update_block_path w current_version) as Hpath.
  destruct (update_block w current_version) as [head [[code|]| |]]; cbn [bind].
  - destruct Hpath as [-> Hpath]. intros H; injection H as <- <-.
    cbn [ret app]. rewrite !app_nil_r.
    exact (run_installer w app_dir opened current_version head Hdir Hlocal Hpath).
  - rewrite main_app_block_explicit. cbv zeta.
    destruct (Nat.ltb_spec (String.length (app_dir ++ String BACKSLASH MAIN_EXE)) MAX_PATH_LEN)
      as [Hfit|Hfit]; intros H; injection H as <- <-; cbn [app].
    + exact (run_main_app w app_dir opened current_version head Hdir Hlocal Hpath Hfit).
    + rewrite !app_nil_r. apply (run_invalid_parameter w app_dir); [exact Hdir|].
      right; right. eauto.
  - intros H; injection H as <- <-. rewrite ?app_nil_r.
    apply (run_invalid_parameter w app_dir); [exact Hdir|].
    destruct Hpath as [->|(release & Hc & Ha & ->)]; [now left|].
    right; left. exists opened, current_version, release. auto.
  - contradiction.
Qed.

Lemma WinMain_follows_state_machine_witness :
  launcher_run (update_world [Some "MZ"; Some "payload"] only_main_app_starts)
    (fst (WinMain (update_world [Some "MZ"; Some "payload"] only_main_app_starts)))
    (Ret 0%Z).
Proof.
  apply WinMain_follows_state_machine. vm_compute. reflexivity.
Defined.

Lemma existsb_only_processes (p : Event -> bool) (t : list Event) :
  existsb is_process t = false ->
  (forall e, p e = true -> is_process e = true) ->
  existsb p t = false.
Proof.
  intros Ht Hp. induction t as [|e t IH]; [reflexivity|].
  cbn [existsb] in *. apply orb_false_iff in Ht as [He Ht].
  rewrite (IH Ht), orb_false_r.
  destruct (p e) eqn:E; [|reflexivity]. rewrite (Hp e E) in He. discriminate.
Qed.

Lemma download_events_no_process (t : list Event) :
  forallb is_download_event t = true -> existsb is_process t = false.
Proof.
  induction t as [|e t IH]; [reflexivity|].
  cbn [forallb existsb]. intros H. apply andb_true_iff in H as [He Ht].
  rewrite (IH Ht). destruct e; try discriminate; reflexivity.
Qed.

Lemma download_window_trace_no_process (w : World) (release : ReleaseInfo)
  (message installer_path : string) :
  existsb is_process (download_window_trace w release message installer_path) = false.
Proof.
  unfold download_window_trace. cbn [existsb is_process orb].
  rewrite !existsb_app.
  rewrite (download_events_no_process _ (DownloadFile_events _ _ _ _)).
  destruct (window w); reflexivity.
Qed.

(** What a path of the update block starts: nothing, unless it ends with the
    installer's successful start. *)
Lemma update_path_started (w : World) (current_version : string) (head : list Event)
  (started : bool) :
  update_path w current_version head started ->
  existsb is_main_app_launch head = false
  /\ if started
     then exists pre command_line,
            head = (pre ++ [CreateProcess None (Some command_line) None])%list
            /\ create_process w None (Some command_line) = true
            /\ existsb is_process pre = false
     else existsb (process_started w) head = false.
Proof.
  intros H. destruct H; cbv zeta.
  - split; reflexivity.
  - split; reflexivity.
  - rewrite !existsb_app.
    rewrite !(existsb_only_processes _ _ (download_window_trace_no_process _ _ _ _));
      [split; reflexivity| |]; intros [] E; try discriminate E; reflexivity.
  - rewrite !existsb_app.
    rewrite !(existsb_only_processes _ _ (download_window_trace_no_process _ _ _ _));
      [|intros [] E; try discriminate E; reflexivity
       |intros [] E; try discriminate E; reflexivity].
    cbn [existsb is_main_app_launch process_started orb]. rewrite H2. split; reflexivity.
  - rewrite !existsb_app.
    rewrite !(existsb_only_processes _ _ (download_window_trace_no_process _ _ _ _));
      [|intros [] E; try discriminate E; reflexivity].
    split; [reflexivity|]. eexists _, _. split; [reflexivity|].
    split; [assumption|apply download_window_trace_no_process].
Qed.



Lemma feed_unavailable_no_update (net : Feed) (current_version : string)
  (release : ReleaseInfo) :
  feed_unavailable net = true ->
  CheckForUpdates net current_version release = Ret (false, release).
Proof.
  destruct net as [| |[data|]]; try reflexivity.
  cbn [feed_unavailable]. intros H. apply Nat.eqb_eq in H.
  destruct data; [reflexivity|discriminate H].
Qed.

Lemma update_path_declined (w : World) (current_version : string) (head : list Event)
  (started : bool) :
  update_path w current_version head started ->
  dialog_answer w <> IDYES ->
  existsb is_update_activity head = false /\ started = false.
Proof.
  intros H Hno. destruct H; try contradiction; split; reflexivity.
Qed.

(** X4. Nothing is downloaded without consent: when the update dialog is
    answered with anything but IDYES (or is never shown), the run opens no
    progress window, writes no file and starts no installer. *)
Theorem WinMain_declined_no_download (w : World) (t : list Event) (r : res Z) :
  dialog_answer w <> IDYES ->
  WinMain w = (t, r) ->
  existsb is_update_activity t = false.
Proof.
  intros Hno HW. apply WinMain_follows_state_machine in HW.
  inversion HW as [Hdir|app_dir opened cur head Hdir Hlocal Hpath
                   |app_dir opened cur head exe_path created Hdir Hlocal Hpath Hfit
                   |app_dir head Hdir Hhead];
    subst.
  - reflexivity.
  - destruct (update_path_declined _ _ _ _ Hpath Hno) as [_ E]. discriminate E.
  - destruct (update_path_declined _ _ _ _ Hpath Hno) as [E _].
    rewrite existsb_app, E. destruct created; reflexivity.
  - destruct Hhead as [->|[(opened & cur & release & _ & _ & Hyes & _)
                          |(opened & cur & _ & Hpath)]].
    + reflexivity.
    + contradiction.
    + apply (update_path_declined _ _ _ _ Hpath Hno).
Qed.

Lemma WinMain_declined_no_download_witness :
  let w := mkWorld (backslash "C:" (backslash "Apps" "launcher.exe"))
                   (fun _ => Some "1.2.0") EmptyString (FeedRead (Some feed_2_3_0))
                   7 (backslash "C:" (backslash "Temp" EmptyString)) true
                   (mkDownload true true true [Some "MZ"]) all_start in
  existsb is_update_activity (fst (WinMain w)) = false.
Proof.
  intros w.
  apply (WinMain_declined_no_download w (fst (WinMain w)) (snd (WinMain w))).
  - discriminate.
  - vm_compute. reflexivity.
Defined.

Lemma update_path_silent (w : World) (current_version : string) (head : list Event)
  (started : bool) :
  update_path w current_version head started ->
  feed_unavailable (feed w) = true ->
  head = [] /\ started = false.
Proof.
  intros H Hfeed.
  pose proof (feed_unavailable_no_update (feed w) current_version release_zero Hfeed) as E.
  destruct H; try congruence. split; reflexivity.
Qed.

(** X5. Feed failures are silent: when the session or the URL cannot be
    opened, or the read fails or brings no bytes, CheckForUpdates reports no
    update and leaves the release record as it was, and the run shows no
    update dialog, opens no window, writes no file and starts no installer. *)
Theorem WinMain_feed_unavailable_silent (w : World) :
  feed_unavailable (feed w) = true ->
  (forall current_version release,
      CheckForUpdates (feed w) current_version release = Ret (false, release))
  /\ (forall t r,
         WinMain w = (t, r) ->
         existsb is_update_dialog t = false /\ existsb is_update_activity t = false).
Proof.
  intros Hfeed. split; [intros; now apply feed_unavailable_no_update|].
  intros t r HW. apply WinMain_follows_state_machine in HW.
  inversion HW as [Hdir|app_dir opened cur head Hdir Hlocal Hpath
                   |app_dir opened cur head exe_path created Hdir Hlocal Hpath Hfit
                   |app_dir head Hdir Hhead];
    subst.
  - split; reflexivity.
  - destruct (update_path_silent _ _ _ _ Hpath Hfeed) as [_ E]. discriminate E.
  - destruct (update_path_silent _ _ _ _ Hpath Hfeed) as [-> _].
    destruct created; split; reflexivity.
  - destruct Hhead as [->|[(opened & cur & release & _ & Hc & _)
                          |(opened & cur & _ & Hpath)]].
    + split; reflexivity.
    + rewrite (feed_unavailable_no_update _ cur release_zero Hfeed) in Hc. discriminate Hc.
    + destruct (update_path_silent _ _ _ _ Hpath Hfeed) as [-> _]. split; reflexivity.
Qed.

Lemma WinMain_feed_unavailable_silent_witness :
  let w := mkWorld (backslash "C:" (backslash "Apps" "launcher.exe"))
                   (fun _ => Some "1.2.0") EmptyString FeedNoConnect
                   IDYES (backslash "C:" (backslash "Temp" EmptyString)) true
                   (mkDownload true true true [Some "MZ"]) all_start in
  existsb is_update_dialog (fst (WinMain w)) = false
  /\ existsb is_update_activity (fst (WinMain w)) = false.
Proof.
  intros w.
  exact (proj2 (WinMain_feed_unavailable_silent w eq_refl)
           (fst (WinMain w)) (snd (WinMain w)) ltac:(vm_compute; reflexivity)).
Defined.

Lemma GetAppDirectory_path (dir file : string) :
  mem_char BACKSLASH file = false ->
  GetAppDirectory (dir ++ String BACKSLASH file) = Some dir.
Proof.
  intros Hfile. unfold GetAppDirectory.
  rewrite length_app. cbn [String.length].
  replace (String.length dir + S (String.length file)) with
    (S (String.length dir + String.length file)) by lia.
  cbn [Nat.eqb]. rewrite strrchr_last by exact Hfile. now rewrite cut_at_last.
Qed.

(** X6. The main application is only ever started from the launcher's own
    directory: for a launcher at [dir\file], every start of the main
    application in a run is the creation of [dir\workspace.exe] with [dir] as
    its working directory and no command line. *)
Theorem WinMain_main_app_from_launcher_directory (w : World) (dir file : string)
  (t : list Event) (r : res Z) :
  module_file_name w = dir ++ String BACKSLASH file ->
  mem_char BACKSLASH file = false ->
  WinMain w = (t, r) ->
  forall e, In e t -> is_main_app_launch e = true ->
            e = CreateProcess (Some (dir ++ String BACKSLASH MAIN_EXE)) None (Some dir).
Proof.
  intros Hmod Hfile HW e Hin He.
  pose proof (GetAppDirectory_path dir file Hfile) as Hd. rewrite <- Hmod in Hd.
  assert (Hhead : forall cur head started,
             update_path w cur head started -> In e head -> False).
  { intros cur head started Hpath Hh.
    apply update_path_started in Hpath as [Hm _].
    assert (existsb is_main_app_launch head = true)
      by (apply existsb_exists; eauto).
    congruence. }
  apply WinMain_follows_state_machine in HW.
  inversion HW as [Hdir|app_dir opened cur head Hdir Hlocal Hpath
                   |app_dir opened cur head exe_path created Hdir Hlocal Hpath Hfit
                   |app_dir head Hdir Hh];
    subst.
  - destruct Hin as [<-|[]]. discriminate He.
  - exfalso. eauto.
  - rewrite Hd in Hdir. injection Hdir as <-.
    apply in_app_iff in Hin as [Hin|[<-|Hin]]; [exfalso; eauto|reflexivity|].
    destruct created; [destruct Hin|destruct Hin as [<-|[]]; discriminate He].
  - destruct Hh as [->|[(opened & cur & release & _ & _ & _ & ->)
                       |(opened & cur & _ & Hpath)]].
    + destruct Hin.
    + destruct Hin as [<-|[]]. discriminate He.
    + exfalso. eauto.
Qed.

Lemma WinMain_main_app_from_launcher_directory_witness :
  In (CreateProcess
        (Some (backslash "C:" (backslash "Apps" (backslash "Workspace" "workspace.exe"))))
        None (Some (backslash "C:" (backslash "Apps" "Workspace"))))
     (fst (WinMain (update_world [Some "MZ"; Some "payload"] only_main_app_starts)))
  /\ CreateProcess
       (Some (backslash "C:" (backslash "Apps" (backslash "Workspace" "workspace.exe"))))
       None (Some (backslash "C:" (backslash "Apps" "Workspace")))
     = CreateProcess
         (Some (backslash "C:" (backslash "Apps" "Workspace") ++ String BACKSLASH MAIN_EXE))
         None (Some (backslash "C:" (backslash "Apps" "Workspace"))).
Proof.
  assert (Hin : In (CreateProcess
                      (Some (backslash "C:" (backslash "Apps"
                                               (backslash "Workspace" "workspace.exe"))))
                      None (Some (backslash "C:" (backslash "Apps" "Workspace"))))
                   (fst (WinMain (update_world [Some "MZ"; Some "payload"]
                                    only_main_app_starts))))
    by (vm_compute; tauto).
  split; [exact Hin|].
  exact (WinMain_main_app_from_launcher_directory
           (update_world [Some "MZ"; Some "payload"] only_main_app_starts)
           (backslash "C:" (backslash "Apps" "Workspace")) "launcher.exe"
           (fst (WinMain (update_world [Some "MZ"; Some "payload"] only_main_app_starts)))
           (snd (WinMain (update_world [Some "MZ"; Some "payload"] only_main_app_starts)))
           ltac:(vm_compute; reflexivity) ltac:(reflexivity) ltac:(vm_compute; reflexivity)
           _ Hin ltac:(reflexivity)).
Defined.

Lemma update_path_installer (w : World) (current_version : string) (head : list Event)
  (started : bool) (command_line directory : option string) :
  update_path w current_version head started ->
  In (CreateProcess None command_line directory) head ->
  exists release after,
    let installer_path := temp_path w ++ filename release in
    command_line = Some (installer_command_line installer_path)
    /\ snd (DownloadFile (download w) (download_url release) installer_path (window w)) = true
    /\ head = (download_window_trace w release
                 (update_message current_version (version release)) installer_path
               ++ after)%list
    /\ In (CreateProcess None command_line directory) after.
Proof.
  assert (Hno : forall release message path,
             ~ In (CreateProcess None command_line directory)
                  (download_window_trace w release message path)).
  { intros release message path Hin.
    pose proof (download_window_trace_no_process w release message path) as H.
    assert (existsb is_process (download_window_trace w release message path) = true)
      by (apply existsb_exists; eexists; split; [exact Hin|reflexivity]).
    congruence. }
  intros H Hin. destruct H as [release Hc|release Hc Hd|release path Hc Ha Hs
                              |release path Hc Ha Hs Hcr|release path Hc Ha Hs Hcr].
  - destruct Hin.
  - destruct Hin as [E|[]]. discriminate E.
  - apply in_app_iff in Hin as [Hin|[E|[]]]; [now apply Hno in Hin|discriminate E].
  - apply in_app_iff in Hin as [Hin|Hin]; [now apply Hno in Hin|].
    exists release. eexists. cbv zeta. split; [|split; [exact Hs|split; [reflexivity|exact Hin]]].
    destruct Hin as [E|[E|[]]]; [now injection E as <- <-|discriminate E].
  - apply in_app_iff in Hin as [Hin|Hin]; [now apply Hno in Hin|].
    exists release. eexists. cbv zeta. split; [|split; [exact Hs|split; [reflexivity|exact Hin]]].
    destruct Hin as [E|[]]. now injection E as <- <-.
Qed.

(** X7. The installer is started from the file the download wrote, after
    that file was closed: whenever a run creates a process from a command
    line, the command line is the quoted path followed by /UPDATE /SILENT,
    and before it the trace holds the opening of that very path, the writes
    of the download loop and the closing of the file. *)
Theorem WinMain_installer_from_closed_download (w : World) (t : list Event) (r : res Z)
  (command_line directory : option string) :
  WinMain w = (t, r) ->
  In (CreateProcess None command_line directory) t ->
  exists installer_path before after,
    command_line = Some (quoted installer_path ++ " /UPDATE /SILENT")
    /\ t = (before ++ Fopen installer_path
              :: download_loop (dl_reads (download w)) installer_path (window w) 0
              ++ Fclose installer_path :: after)%list
    /\ In (CreateProcess None command_line directory) after.
Proof.
  intros HW Hin.
  assert (Hhead : forall cur head started tail,
             update_path w cur head started ->
             In (CreateProcess None command_line directory) head ->
             exists installer_path before after,
               command_line = Some (quoted installer_path ++ " /UPDATE /SILENT")
               /\ (head ++ tail)%list
                  = (before ++ Fopen installer_path
                       :: download_loop (dl_reads (download w)) installer_path (window w) 0
                       ++ Fclose installer_path :: after)%list
               /\ In (CreateProcess None command_line directory) after).
  { intros cur head started tail Hpath Hh.
    destruct (update_path_installer _ _ _ _ _ _ Hpath Hh)
      as (release & after & Hcmd & Hs & -> & Hafter). cbv zeta in *.
    set (path := temp_path w ++ filename release) in *.
    unfold download_window_trace.
    destruct (DownloadFile (download w) (download_url release) path (window w))
      as [dl_t ok] eqn:Hdf.
    cbn [fst snd] in *. subst ok. apply DownloadFile_success in Hdf. subst dl_t.
    exists path.
    exists (MessageBox (update_message cur (version release)) "Update Available"
              :: CreateWindow :: (if window w then [ShowWindow] else []))%list.
    exists ((if window w then [DestroyWindow] else []) ++ after ++ tail)%list.
    split; [exact Hcmd|]. split.
    - cbn [app]. rewrite <- !List.app_assoc. cbn [app]. rewrite <- !List.app_assoc.
      reflexivity.
    - apply in_app_iff. right. apply in_app_iff. now left. }
  apply WinMain_follows_state_machine in HW.
  inversion HW as [Hdir|app_dir opened cur head Hdir Hlocal Hpath
                   |app_dir opened cur head exe_path created Hdir Hlocal Hpath Hfit
                   |app_dir head Hdir Hh];
    subst.
  - destruct Hin as [E|[]]. discriminate E.
  - destruct (Hhead _ _ _ [] Hpath Hin) as (x & y & z & H1 & H2 & H3).
    rewrite app_nil_r in H2. eauto 6.
  - apply in_app_iff in Hin as [Hin|[E|Hin]].
    + eapply Hhead; eauto.
    + discriminate E.
    + destruct created; [destruct Hin|destruct Hin as [E|[]]; discriminate E].
  - destruct Hh as [->|[(opened & cur & release & _ & _ & _ & ->)
                       |(opened & cur & _ & Hpath)]].
    + destruct Hin.
    + destruct Hin as [E|[]]. discriminate E.
    + destruct (Hhead _ _ _ [] Hpath Hin) as (x & y & z & H1 & H2 & H3).
      rewrite app_nil_r in H2. eauto 6.
Qed.

Lemma WinMain_installer_from_closed_download_witness :
  let w := update_world [Some "MZ"; Some "payload"] all_start in
  exists installer_path before after,
    Some (quoted (backslash "C:" (backslash "Temp" "app-2.3.0.exe")) ++ " /UPDATE /SILENT")
    = Some (quoted installer_path ++ " /UPDATE /SILENT")
    /\ fst (WinMain w)
       = (before ++ Fopen installer_path
            :: download_loop (dl_reads (download w)) installer_path (window w) 0
            ++ Fclose installer_path :: after)%list
    /\ In (CreateProcess None
             (Some (quoted (backslash "C:" (backslash "Temp" "app-2.3.0.exe"))
                      ++ " /UPDATE /SILENT")) None) after.
Proof.
  intros w.
  apply (WinMain_installer_from_closed_download w (fst (WinMain w)) (snd (WinMain w))).
  - vm_compute. reflexivity.
  - vm_compute. tauto.
Defined.

(** ** DownloadFile, further *)

Lemma download_loop_stops (chunks : list string) (stop : read_outcome)
  (rest : list read_outcome) (dest_path : string) (hwnd : bool) (totalBytes : Z) :
  Forall (fun c => c <> EmptyString) chunks ->
  ends_download stop = true ->
  download_loop (map Some chunks ++ stop :: rest) dest_path hwnd totalBytes
  = download_loop (map Some chunks) dest_path hwnd totalBytes.
Proof.
  intros Hchunks Hstop. revert totalBytes.
  induction Hchunks as [|c chunks Hc _ IH]; intros totalBytes.
  - cbn [map app]. destruct stop as [[|a b]|]; try reflexivity. discriminate Hstop.
  - cbn [map app]. rewrite !download_loop_chunk by exact Hc. cbv zeta. now rewrite IH.
Qed.

Lemma delivered_chunks (chunks : list string) :
  Forall (fun c => c <> EmptyString) chunks ->
  delivered (map Some chunks) = concat_chunks chunks.
Proof.
  induction 1 as [|c chunks Hc _ IH]; [reflexivity|].
  cbn [map delivered concat_chunks]. destruct c as [|a c]; [congruence|].
  cbn [String.length Nat.ltb Nat.leb]. now rewrite IH.
Qed.

(** X8. The download ends at the first read that fails or brings no bytes:
    what the source would deliver afterwards is neither read nor written.
    The run of DownloadFile is the one of a source that ends there, the file
    holds the chunks before that read one after the other, and with a
    progress window one count is shown per chunk. *)
Theorem DownloadFile_ends_at_first_empty_read (chunks : list string) (stop : read_outcome)
  (rest : list read_outcome) (url dest_path : string) (hwnd : bool) :
  Forall (fun c => c <> EmptyString) chunks ->
  ends_download stop = true ->
  let t := fst (DownloadFile (mkDownload true true true (map Some chunks ++ stop :: rest))
                  url dest_path hwnd) in
  DownloadFile (mkDownload true true true (map Some chunks ++ stop :: rest)) url dest_path hwnd
  = DownloadFile (mkDownload true true true (map Some chunks)) url dest_path hwnd
  /\ written dest_path t = concat_chunks chunks
  /\ List.length (progress_counts t) = (if hwnd then List.length chunks else 0).
Proof.
  intros Hchunks Hstop. cbv zeta. rewrite !DownloadFile_opened.
  rewrite (download_loop_stops _ _ _ _ _ _ Hchunks Hstop). cbn [fst].
  split; [reflexivity|]. split.
  - rewrite !written_app, download_loop_written. cbn [written].
    rewrite app_empty_r. now apply delivered_chunks.
  - rewrite !progress_counts_app. cbn [progress_counts app]. rewrite app_nil_r.
    destruct hwnd; [|now rewrite download_loop_no_progress].
    clear Hstop. generalize 0%Z.
    induction Hchunks as [|c chunks Hc _ IH]; intros z; [reflexivity|].
    cbn [map]. rewrite download_loop_chunk by exact Hc. cbv zeta.
    cbn [progress_counts app List.length]. now rewrite IH.
Qed.

Lemma DownloadFile_ends_at_first_empty_read_witness :
  let t := fst (DownloadFile (mkDownload true true true
                                (map Some ["MZ"; "abc"] ++ None :: [Some "lost"]))
                  "https://x/y/app.exe" "C:/tmp/app.exe" true) in
  written "C:/tmp/app.exe" t = "MZabc" /\ List.length (progress_counts t) = 2.
Proof.
  intros t.
  exact (proj2 (DownloadFile_ends_at_first_empty_read ["MZ"; "abc"] None [Some "lost"]
                  "https://x/y/app.exe" "C:/tmp/app.exe" true
                  ltac:(repeat constructor; discriminate) ltac:(reflexivity))).
Defined.

Lemma download_loop_other_path (reads : list read_outcome) (dest_path path : string)
  (hwnd : bool) (totalBytes : Z) :
  path <> dest_path ->
  written path (download_loop reads dest_path hwnd totalBytes) = EmptyString.
Proof.
  intros Hne. revert totalBytes. induction reads as [|[buffer|] reads IH]; intros totalBytes;
    try reflexivity.
  destruct buffer as [|a b]; [reflexivity|].
  rewrite download_loop_chunk by discriminate. cbv zeta. cbn [written].
  destruct (String.eqb_spec dest_path path) as [E|_]; [congruence|].
  rewrite written_app, IH. destruct hwnd; reflexivity.
Qed.

(** X9. DownloadFile writes to its destination only, and a download that
    fails has written nothing and shown no progress: the failure is decided
    before the first read. *)
Theorem DownloadFile_writes_destination_only (net : Download) (url dest_path : string)
  (hwnd : bool) :
  (forall path, path <> dest_path ->
                written path (fst (DownloadFile net url dest_path hwnd)) = EmptyString)
  /\ (snd (DownloadFile net url dest_path hwnd) = false ->
      written dest_path (fst (DownloadFile net url dest_path hwnd)) = EmptyString
      /\ progress_counts (fst (DownloadFile net url dest_path hwnd)) = []).
Proof.
  unfold DownloadFile.
  destruct (dl_internet net), (dl_connect net), (dl_fopen net); cbn [negb fst snd];
    (split; [intros path Hne|intros H; try discriminate H; split; reflexivity]);
    try reflexivity.
  rewrite !written_app, download_loop_other_path by exact Hne. reflexivity.
Qed.

Lemma DownloadFile_writes_destination_only_witness :
  written "C:/tmp/other.exe"
    (fst (DownloadFile (mkDownload true true true [Some "MZ"])
            "https://x/y/app.exe" "C:/tmp/app.exe" true))
  = EmptyString.
Proof.
  exact (proj1 (DownloadFile_writes_destination_only (mkDownload true true true [Some "MZ"])
                  "https://x/y/app.exe" "C:/tmp/app.exe" true)
           "C:/tmp/other.exe" ltac:(discriminate)).
Defined.

(** ** CheckForUpdates, further *)

Lemma strip_leading_v_length (s : string) :
  String.length (strip_leading_v s) <= String.length s.
Proof.
  rewrite <- strip_v_spec. unfold strip_v.
  destruct (Ascii.eqb (char0 s) "v"%char); [|lia].
  destruct s; cbn [ptr_inc String.length]; lia.
Qed.

Lemma tag_version_length (doc old : string) :
  String.length old < VERSION_SIZE ->
  String.length (tag_version doc old) < VERSION_SIZE.
Proof.
  intros Hold. unfold tag_version.
  destruct (hd_error (occurrences TAG_NAME_KEY doc)) as [tag|]; [|exact Hold].
  destruct (quoted_value_from tag) as [[value from_value]|]; [|exact Hold].
  destruct (Nat.ltb_spec (String.length value) VERSION_SIZE) as [Hlt|_]; [|exact Hold].
  pose proof (strip_leading_v_length value). lia.
Qed.

Lemma exe_asset_stored (occ : string) (release r : ReleaseInfo) :
  exe_asset occ release = Ret (Some r) ->
  exists from_value,
    quoted_value_from occ = Some (download_url r, from_value)
    /\ contains EXE from_value = true
    /\ String.length (download_url r) < DOWNLOAD_URL_SIZE
    /\ stored release (download_url r) r.
Proof.
  rewrite exe_asset_spec.
  destruct (quoted_value_from occ) as [[value from_value]|] eqn:Hq; [|discriminate].
  destruct (contains EXE from_value) eqn:Hc; cbn [andb]; [|discriminate].
  destruct (Nat.ltb_spec (String.length value) DOWNLOAD_URL_SIZE) as [Hlt|_]; [|discriminate].
  intros E.
  destruct (store_url_cases release value) as [[E' _]|(r' & E' & Hs)];
    rewrite E' in E; [discriminate|].
  injection E as ->. pose proof Hs as (Hurl & _). subst value.
  exists from_value. repeat split; try assumption; apply Hs.
Qed.

Lemma fetchLatestRelease_fits (net : Feed) (release r : ReleaseInfo) (b : bool) :
  release_fits release ->
  fetchLatestRelease net release = Ret (b, r) ->
  release_fits r.
Proof.
  intros (Hv & Hu & Hf). unfold fetchLatestRelease.
  assert (Hsame : Ret (false, release) = Ret (b, r) -> release_fits r)
    by (intros E; injection E as <- <-; repeat split; assumption).
  destruct net as [| |[data|]]; try exact Hsame.
  destruct (Nat.ltb 0 (String.length data)); [|exact Hsame].
  rewrite parse_response_scan. intros Hscan.
  pose proof (tag_version_length (cstr data) (version release) Hv) as Hv'.
  apply scan_occurrences_true in Hscan. destruct b.
  - destruct Hscan as (occ & _ & He).
    apply exe_asset_stored in He as (from_value & _ & _ & Hlen & _ & Hver & Hfile).
    cbn [version filename set_version] in Hver, Hfile.
    repeat split; [now rewrite Hver|exact Hlen|].
    destruct Hfile as [[_ ->]|(before & _ & _ & Hlt)]; assumption.
  - subst r. repeat split; assumption.
Qed.

(** X10. The release record never outgrows its arrays: when version,
    download URL and file name fit their 32, 512 and 128 bytes on entry, they
    still do whenever CheckForUpdates returns, whatever the feed holds; in
    particular for the zeroed record WinMain passes. *)
Theorem CheckForUpdates_fields_fit (net : Feed) (current_version : string)
  (release r : ReleaseInfo) (update : bool) :
  release_fits release ->
  CheckForUpdates net current_version release = Ret (update, r) ->
  release_fits r.
Proof.
  intros Hfit. unfold CheckForUpdates.
  destruct (fetchLatestRelease net release) as [[b r']| |] eqn:E; cbn [res_bind];
    try discriminate.
  intros H; injection H as _ <-. exact (fetchLatestRelease_fits _ _ _ _ Hfit E).
Qed.

Lemma CheckForUpdates_fields_fit_witness :
  release_fits (mkRelease "2.3.0" "https://x/y/app-2.3.0.exe" "app-2.3.0.exe").
Proof.
  apply (CheckForUpdates_fields_fit (FeedRead (Some feed_2_3_0)) "1.2.0" release_zero _ true).
  - repeat split; apply Nat.ltb_lt; reflexivity.
  - vm_compute. reflexivity.
Defined.

Lemma contains_suffix (k before s : string) :
  contains k s = true -> contains k (before ++ s) = true.
Proof.
  intros H. induction before as [|a before IH]; [exact H|].
  change (String a before ++ s) with (String a (before ++ s)).
  cbn [contains]. rewrite IH. apply orb_true_r.
Qed.

Lemma occurrences_suffix (k s occ : string) :
  In occ (occurrences k s) -> exists before, s = before ++ occ.
Proof.
  induction s as [|a s IH]; cbn [occurrences].
  - destruct (String.prefix k EmptyString); cbn; [|tauto].
    intros [<-|[]]. now exists EmptyString.
  - intros H. apply in_app_iff in H as [H|H].
    + destruct (String.prefix k (String a s)); [|destruct H].
      destruct H as [<-|[]]. now exists EmptyString.
    + destruct (IH H) as [before ->]. now exists (String a before).
Qed.

Lemma quoted_value_from_suffix (occ value from_value : string) :
  quoted_value_from occ = Some (value, from_value) ->
  exists before, occ = before ++ from_value.
Proof.
  unfold quoted_value_from.
  destruct (split_at ":"%char occ) as [[b1 a1]|] eqn:E1; [|discriminate].
  destruct (split_at DQUOTE a1) as [[b2 a2]|] eqn:E2; [|discriminate].
  destruct (split_at DQUOTE a2) as [[v rest]|]; [|discriminate].
  intros H; injection H as <- <-.
  apply split_at_Some in E1 as [-> _]. apply split_at_Some in E2 as [-> _].
  exists (b1 ++ String ":"%char (b2 ++ String DQUOTE EmptyString)).
  rewrite !app_assoc. cbn [append]. rewrite !app_assoc. reflexivity.
Qed.

Lemma scan_occurrences_none (occs : list string) (release : ReleaseInfo) :
  (forall occ, In occ occs -> exe_asset occ release = Ret None) ->
  scan_occurrences occs release = Ret (false, release).
Proof.
  induction occs as [|occ occs IH]; intros H; [reflexivity|].
  cbn [scan_occurrences]. rewrite (H occ (or_introl eq_refl)). cbn [res_bind].
  apply IH. intros o Ho. apply H. now right.
Qed.

(** X11. A response that holds no ".exe" at all never leads to an update,
    whatever tag and asset URLs it lists: the release is reported absent,
    the URL and file name of the record are left as they were, and
    CheckForUpdates returns FALSE. *)
Theorem CheckForUpdates_no_exe_no_update (data current_version : string)
  (release : ReleaseInfo) :
  contains EXE (cstr data) = false ->
  exists r,
    fetchLatestRelease (FeedRead (Some data)) release = Ret (false, r)
    /\ CheckForUpdates (FeedRead (Some data)) current_version release = Ret (false, r)
    /\ download_url r = download_url release
    /\ filename r = filename release.
Proof.
  intros Hno.
  assert (Hfetch : exists r,
             fetchLatestRelease (FeedRead (Some data)) release = Ret (false, r)
             /\ download_url r = download_url release /\ filename r = filename release).
  { unfold fetchLatestRelease.
    destruct (Nat.ltb 0 (String.length data)); [|now exists release].
    rewrite parse_response_scan.
    exists (set_version release (tag_version (cstr data) (version release))).
    split; [|split; reflexivity].
    apply scan_occurrences_none. intros occ Hin. rewrite exe_asset_spec.
    destruct (quoted_value_from occ) as [[value from_value]|] eqn:Hq; [|reflexivity].
    destruct (contains EXE from_value) eqn:Hc; [|reflexivity].
    apply occurrences_suffix in Hin as [b1 Hdoc].
    apply quoted_value_from_suffix in Hq as [b2 Hocc].
    rewrite Hdoc, Hocc in Hno.
    rewrite (contains_suffix _ b1 _ (contains_suffix _ b2 _ Hc)) in Hno. discriminate Hno. }
  destruct Hfetch as (r & Hf & Hu & Hn). exists r.
  split; [exact Hf|]. split; [|split; assumption].
  unfold CheckForUpdates. rewrite Hf. reflexivity.
Qed.

Lemma CheckForUpdates_no_exe_no_update_witness :
  exists r,
    fetchLatestRelease (FeedRead (Some (TAG_NAME_KEY ++ ": " ++ quoted "v9.9.9")))
      release_zero = Ret (false, r)
    /\ CheckForUpdates (FeedRead (Some (TAG_NAME_KEY ++ ": " ++ quoted "v9.9.9")))
         "1.2.0" release_zero = Ret (false, r)
    /\ download_url r = EmptyString
    /\ filename r = EmptyString.
Proof.
  exact (CheckForUpdates_no_exe_no_update (TAG_NAME_KEY ++ ": " ++ quoted "v9.9.9")
           "1.2.0" release_zero ltac:(vm_compute; reflexivity)).
Defined.

Lemma scan_occurrences_prefix (occs : list string) (release r : ReleaseInfo) :
  scan_occurrences occs release = Ret (true, r) ->
  exists pre occ post,
    occs = (pre ++ occ :: post)%list
    /\ exe_asset occ release = Ret (Some r)
    /\ Forall (fun o => exe_asset o release = Ret None) pre.
Proof.
  induction occs as [|occ occs IH]; cbn [scan_occurrences]; [discriminate|].
  destruct (exe_asset occ release) as [[r'|]| |] eqn:Ea; cbn [res_bind]; try discriminate.
  - intros E; injection E as <-. exists [], occ, occs. auto.
  - intros E. destruct (IH E) as (pre & o & post & -> & He & Hpre).
    exists (occ :: pre), o, post. auto.
Qed.

Lemma exe_asset_passed_over (occ : string) (release : ReleaseInfo) :
  exe_asset occ release = Ret None -> short_value_has_exe occ = false.
Proof.
  rewrite exe_asset_spec. unfold short_value_has_exe, quoted_value.
  destruct (quoted_value_from occ) as [[value from_value]|] eqn:Hq;
    cbn [option_map fst]; [|reflexivity].
  destruct (contains EXE value) eqn:Hv; [|reflexivity].
  rewrite (contains_value_from _ _ _ Hq Hv). cbn [andb].
  destruct (Nat.ltb (String.length value) DOWNLOAD_URL_SIZE); [|reflexivity].
  destruct (store_url_cases release value) as [[-> _]|(r & -> & _)]; discriminate.
Qed.

(** X12. The asset scan never passes over an installer: when a response
    yields an asset, no earlier occurrence of [browser_download_url] has a
    value that contains ".exe" and is shorter than 512 bytes; and the asset
    is the quoted value of the occurrence the scan stopped at. *)
Theorem parse_response_never_passes_fitting_exe (data : string) (release r : ReleaseInfo) :
  parse_response data release = Ret (true, r) ->
  exists pre occ post from_value,
    occurrences BROWSER_DOWNLOAD_URL_KEY (cstr data) = (pre ++ occ :: post)%list
    /\ quoted_value_from occ = Some (download_url r, from_value)
    /\ existsb short_value_has_exe pre = false.
Proof.
  rewrite parse_response_scan. intros H.
  apply scan_occurrences_prefix in H as (pre & occ & post & Hocc & He & Hpre).
  apply exe_asset_stored in He as (from_value & Hq & _).
  exists pre, occ, post, from_value. split; [exact Hocc|]. split; [exact Hq|].
  clear Hocc. induction Hpre as [|o pre Ho _ IH]; [reflexivity|].
  cbn [existsb]. now rewrite (exe_asset_passed_over _ _ Ho), IH.
Qed.

Lemma parse_response_never_passes_fitting_exe_witness :
  exists pre occ post from_value,
    occurrences BROWSER_DOWNLOAD_URL_KEY (cstr feed_long_first) = (pre ++ occ :: post)%list
    /\ quoted_value_from occ = Some ("https://x/y/app-2.3.0.exe", from_value)
    /\ existsb short_value_has_exe pre = false.
Proof.
  exact (parse_response_never_passes_fitting_exe feed_long_first release_zero
           (mkRelease "2.3.0" "https://x/y/app-2.3.0.exe" "app-2.3.0.exe")
           ltac:(vm_compute; reflexivity)).
Defined.

Lemma cstr_at_NUL (a b : string) :
  mem_char NUL a = false -> cstr (a ++ String NUL b) = a.
Proof.
  intros Ha. rewrite cstr_app, Ha. cbn [cstr]. rewrite Ascii.eqb_refl. apply app_empty_r.
Qed.

(** X13. The response is read as a C string: whatever follows its first NUL
    byte is ignored, so a response gives the same result as the text before
    its first NUL, and one that starts with a NUL byte gives no update. *)
Theorem fetchLatestRelease_ignores_after_NUL (a b : string) (release : ReleaseInfo) :
  mem_char NUL a = false ->
  fetchLatestRelease (FeedRead (Some (a ++ String NUL b))) release
  = fetchLatestRelease (FeedRead (Some a)) release.
Proof.
  intros Ha. unfold fetchLatestRelease.
  assert (Hlen : Nat.ltb 0 (String.length (a ++ String NUL b)) = true).
  { apply Nat.ltb_lt. rewrite length_app. cbn [String.length]. lia. }
  rewrite Hlen, !parse_response_scan, cstr_at_NUL by exact Ha.
  destruct a as [|c a]; [|now rewrite cstr_no_nul by exact Ha].
  cbn. now destruct release.
Qed.

Lemma fetchLatestRelease_ignores_after_NUL_witness :
  fetchLatestRelease (FeedRead (Some (feed_2_3_0 ++ String NUL feed_zip_first))) release_zero
  = fetchLatestRelease (FeedRead (Some feed_2_3_0)) release_zero.
Proof.
  exact (fetchLatestRelease_ignores_after_NUL feed_2_3_0 feed_zip_first release_zero
           ltac:(vm_compute; reflexivity)).
Defined.

(** ** ReadVersionFile, further *)

Lemma ReadVersionFile_nonempty (f version : string) :
  f <> EmptyString ->
  ReadVersionFile (Some f) version 32
  = Ret (true, strip_leading_v (strip_line_ending (cstr (take 31 (first_line f))))).
Proof.
  intros Hf. rewrite ReadVersionFile_opened by exact Hf. simpl Nat.sub.
  destruct (fgets_chars_first_line 31 f) as [-> | ->]; [reflexivity|].
  now rewrite strip_line_ending_cstr_LF.
Qed.

Lemma snoc_inj (s t : string) (c d : ascii) :
  s ++ String c EmptyString = t ++ String d EmptyString -> s = t /\ c = d.
Proof.
  revert t; induction s as [|a s IH]; intros [|b t]; cbn [append]; intros E.
  - injection E as ->. auto.
  - injection E as -> E. destruct t; discriminate E.
  - injection E as -> E. destruct s; discriminate E.
  - injection E as -> E. destruct (IH _ E) as [-> ->]. auto.
Qed.

Lemma strip_line_ending_last (s t : string) (c : ascii) :
  strip_line_ending s = t ++ String c EmptyString -> is_eol c = false.
Proof.
  revert t c. induction s as [|s a IH] using string_rev_ind; intros t c.
  - destruct t; discriminate.
  - rewrite strip_line_ending_snoc. destruct (is_eol a) eqn:Ea; [apply IH|].
    intros E. apply snoc_inj in E as [_ <-]. exact Ea.
Qed.

Lemma mem_char_cstr_other (c : ascii) (s : string) :
  mem_char c s = false -> mem_char c (cstr s) = false.
Proof.
  induction s as [|a s IH]; [reflexivity|]. cbn [mem_char cstr].
  intros H. apply orb_false_iff in H as [Ha Hs].
  destruct (Ascii.eqb a NUL); [reflexivity|]. cbn [mem_char]. now rewrite Ha, IH.
Qed.

Lemma cstr_length (s : string) : String.length (cstr s) <= String.length s.
Proof.
  induction s as [|a s IH]; [reflexivity|]. cbn [cstr].
  destruct (Ascii.eqb a NUL); cbn [String.length]; lia.
Qed.

Lemma strip_leading_v_tail (s : string) :
  strip_leading_v s = s \/ s = String "v"%char (strip_leading_v s).
Proof.
  rewrite <- strip_v_spec. unfold strip_v. destruct s as [|a s]; [now left|].
  cbn [char0 ptr_inc]. destruct (Ascii.eqb_spec a "v"%char) as [->|_]; auto.
Qed.

(** X14. The version read from a marker file that opens and is not empty is
    clean: it is at most 31 bytes long, holds neither a newline nor a NUL,
    and does not end with a carriage return or a newline. *)
Theorem ReadVersionFile_version_clean (f version : string) :
  f <> EmptyString ->
  exists v,
    ReadVersionFile (Some f) version 32 = Ret (true, v)
    /\ String.length v <= 31
    /\ mem_char LF v = false
    /\ mem_char NUL v = false
    /\ forall s c, v = s ++ String c EmptyString -> is_eol c = false.
Proof.
  intros Hf. eexists. split; [apply ReadVersionFile_nonempty, Hf|].
  set (line := cstr (take 31 (first_line f))).
  assert (Hlen : String.length line <= 31).
  { subst line. pose proof (cstr_length (take 31 (first_line f))).
    pose proof (take_length_le 31 (first_line f)). lia. }
  assert (HLF : mem_char LF line = false)
    by (apply mem_char_cstr_other, mem_char_take, first_line_no_LF).
  assert (HNUL : mem_char NUL line = false) by apply mem_char_cstr.
  rewrite <- (trim_len_spec line).
  set (body := take (trim_len line (strlen line)) line).
  assert (Hblen : String.length body <= 31)
    by (subst body; pose proof (take_length_le (trim_len line (strlen line)) line);
        pose proof (trim_len_le line (strlen line)); unfold strlen in *; lia).
  assert (HbLF : mem_char LF body = false) by now apply mem_char_take.
  assert (HbNUL : mem_char NUL body = false) by now apply mem_char_take.
  assert (Hlast : forall s c, body = s ++ String c EmptyString -> is_eol c = false).
  { intros s c E. subst body. rewrite trim_len_spec in E.
    exact (strip_line_ending_last _ _ _ E). }
  pose proof (strip_leading_v_length body) as Hvlen.
  destruct (strip_leading_v_tail body) as [E|E].
  - rewrite E. repeat split; try assumption.
  - repeat split; [lia| | |].
    + rewrite E in HbLF. cbn [mem_char] in HbLF. now apply orb_false_iff in HbLF.
    + rewrite E in HbNUL. cbn [mem_char] in HbNUL. now apply orb_false_iff in HbNUL.
    + intros s c Es. apply (Hlast (String "v"%char s)).
      rewrite E at 1. now rewrite Es.
Qed.

Lemma ReadVersionFile_version_clean_witness :
  exists v,
    ReadVersionFile (Some ("v1.2.0" ++ String CR (String LF "second line"))) "junk" 32
    = Ret (true, v)
    /\ String.length v <= 31
    /\ mem_char LF v = false
    /\ mem_char NUL v = false
    /\ forall s c, v = s ++ String c EmptyString -> is_eol c = false.
Proof.
  exact (ReadVersionFile_version_clean ("v1.2.0" ++ String CR (String LF "second line"))
           "junk" ltac:(discriminate)).
Defined.

Lemma first_line_app (line rest : string) :
  mem_char LF line = false -> first_line (line ++ String LF rest) = line.
Proof.
  induction line as [|a line IH]; cbn [append first_line mem_char].
  - now rewrite Ascii.eqb_refl.
  - intros H. apply orb_false_iff in H as [Ha Hl]. now rewrite Ha, IH.
Qed.

(** X15. Only the first line of the marker file counts: two files that
    agree up to their first newline give the same version, whatever follows
    the newline. *)
Theorem ReadVersionFile_first_line_only (line rest rest' version : string) :
  mem_char LF line = false ->
  ReadVersionFile (Some (line ++ String LF rest)) version 32
  = ReadVersionFile (Some (line ++ String LF rest')) version 32.
Proof.
  intros Hline.
  assert (Hne : forall r, line ++ String LF r <> EmptyString)
    by (intros r; destruct line; discriminate).
  rewrite !ReadVersionFile_nonempty by apply Hne.
  now rewrite !first_line_app by exact Hline.
Qed.

Lemma ReadVersionFile_first_line_only_witness :
  ReadVersionFile (Some ("v1.2.0" ++ String LF "built on monday")) "junk" 32
  = ReadVersionFile (Some ("v1.2.0" ++ String LF EmptyString)) "junk" 32.
Proof.
  exact (ReadVersionFile_first_line_only "v1.2.0" "built on monday" EmptyString "junk"
           ltac:(reflexivity)).
Defined.

(** ** The marker file and the feed together *)






(** ** The buffers of WinMain *)

Lemma GetAppDirectory_length (buffer app_dir : string) :
  GetAppDirectory buffer = Some app_dir -> String.length app_dir <= String.length buffer.
Proof.
  unfold GetAppDirectory. destruct (Nat.eqb (String.length buffer) 0); [discriminate|].
  destruct (strrchr buffer BACKSLASH) as [last_slash|]; intros E; injection E as <-; [|lia].
  pose proof (take_length_le (ptr_diff last_slash buffer) buffer). unfold ptr_diff in *. lia.
Qed.

Lemma read_version_length (g : string) :
  String.length (strip_leading_v (strip_line_ending (cstr (take 31 (first_line g))))) < 32.
Proof.
  remember (take 31 (first_line g)) as line eqn:Hline.
  assert (H1 : String.length line <= 31) by (subst line; apply take_length_le).
  pose proof (cstr_length line) as H2.
  pose proof (strip_leading_v_length (strip_line_ending (cstr line))) as H3.
  assert (H4 : String.length (strip_line_ending (cstr line)) <= String.length (cstr line)).
  { rewrite <- trim_len_spec.
    eapply Nat.le_trans; [apply take_length_le|apply trim_len_le]. }
  lia.
Qed.

Lemma ReadVersionFile_length (file : option string) (version0 v : string) (b : bool) :
  String.length version0 < 32 ->
  ReadVersionFile file version0 32 = Ret (b, v) ->
  String.length v < 32.
Proof.
  intros H0. destruct file as [f|].
  - destruct f as [|a f].
    + intros E; injection E as _ <-. exact H0.
    + rewrite ReadVersionFile_nonempty by discriminate. intros E.
      assert (Hv : v = strip_leading_v
                         (strip_line_ending (cstr (take 31 (first_line (String a f))))))
        by congruence.
      rewrite Hv. apply read_version_length.
  - intros E; injection E as _ <-. apply Nat.ltb_lt. reflexivity.
Qed.

Lemma ReadVersionFile_32_valid (file : option string) (version0 : string) :
  ReadVersionFile file version0 32 <> InvalidParameter.
Proof.
  destruct file as [[|a f]|]; discriminate.
Qed.

Lemma update_message_length (current_ver new_ver : string) :
  String.length (update_message current_ver new_ver)
  = 59 + String.length new_ver + String.length current_ver.
Proof.
  unfold update_message. repeat (rewrite length_app || cbn [String.length]). lia.
Qed.

Lemma CheckForUpdates_zero_fits (net : Feed) (current_version : string) (r : ReleaseInfo)
  (update : bool) :
  CheckForUpdates net current_version release_zero = Ret (update, r) -> release_fits r.
Proof.
  unfold CheckForUpdates.
  destruct (fetchLatestRelease net release_zero) as [[b r']| |] eqn:E; cbn [res_bind];
    try discriminate.
  intros H; injection H as _ <-.
  apply (fetchLatestRelease_fits net release_zero r' b); [|exact E].
  repeat split; apply Nat.ltb_lt; reflexivity.
Qed.

Lemma update_block_overflow (w : World) (current_version : string) (t : list Event) :
  String.length (temp_path w) <= 261 ->
  String.length current_version < 32 ->
  update_block w current_version = (t, InvalidParameter) ->
  t = [] /\ CheckForUpdates (feed w) current_version release_zero = InvalidParameter.
Proof.
  intros Htemp Hcur. unfold update_block.
  destruct (CheckForUpdates (feed w) current_version release_zero)
    as [[update release]| |] eqn:Hcheck; cbn [lift bind].
  2:{ intros E; injection E as <-. auto. }
  2:{ discriminate. }
  apply CheckForUpdates_zero_fits in Hcheck as (Hv & _ & Hf).
  unfold VERSION_SIZE, FILENAME_SIZE in *.
  destruct update; [|discriminate].
  unfold ShowUpdateDialog.
  rewrite sprintf_s_fits by (rewrite update_message_length; lia).
  cbn [lift bind emit ret app].
  destruct (dialog_answer w =? IDYES)%Z; [|discriminate].
  rewrite sprintf_s_fits by (rewrite length_app; unfold MAX_PATH_LEN; lia).
  cbn [bind].
  destruct (DownloadFile (download w) (download_url release)
              (temp_path w ++ filename release) (window w)) as [dl_t ok].
  destruct ok.
  - rewrite LaunchInstaller_fits by (rewrite length_app; unfold MAX_PATH_LEN; lia).
    destruct (create_process w None _), (window w); discriminate.
  - destruct (window w); discriminate.
Qed.

Lemma scan_occurrences_invalid (occs : list string) (release : ReleaseInfo) :
  scan_occurrences occs release = InvalidParameter ->
  exists occ url from_value before base,
    In occ occs
    /\ quoted_value_from occ = Some (url, from_value)
    /\ url = before ++ String "/"%char base
    /\ mem_char "/"%char base = false
    /\ FILENAME_SIZE <= String.length base.
Proof.
  induction occs as [|occ occs IH]; cbn [scan_occurrences]; [discriminate|].
  rewrite exe_asset_spec.
  assert (Hnext : scan_occurrences occs release = InvalidParameter ->
                  exists o url from_value before base,
                    In o (occ :: occs)
                    /\ quoted_value_from o = Some (url, from_value)
                    /\ url = before ++ String "/"%char base
                    /\ mem_char "/"%char base = false
                    /\ FILENAME_SIZE <= String.length base).
  { intros E. destruct (IH E) as (o & url & f & b & base & Hin & H).
    exists o, url, f, b, base. split; [now right|exact H]. }
  destruct (quoted_value_from occ) as [[value from_value]|] eqn:Hq; cbn [res_bind];
    [|exact Hnext].
  destruct (contains EXE from_value && _); cbn [res_bind]; [|exact Hnext].
  destruct (store_url_cases release value) as [[-> (before & base & H)]|(r & -> & _)];
    cbn [res_bind]; [|discriminate].
  intros _. exists occ, value, from_value, before, base. split; [now left|auto].
Qed.

Lemma version_path_length (app_dir : string) :
  String.length (app_dir ++ String BACKSLASH VERSION_FILE) = String.length app_dir + 12.
Proof. rewrite length_app. reflexivity. Qed.

Lemma exe_path_length (app_dir : string) :
  String.length (app_dir ++ String BACKSLASH MAIN_EXE) = String.length app_dir + 14.
Proof. rewrite length_app. reflexivity. Qed.

(** X17. Under Windows' path limits the buffers of WinMain suffice: when the
    module path has at most 260 bytes, the temporary path at most 261 and the
    uninitialised version buffer holds a string shorter than itself, a run
    can end in the invalid-parameter handler only inside CheckForUpdates,
    before anything was shown or started, and only because the text after
    the last slash of an asset URL of the response does not fit the 128
    bytes of [filename]. *)
Theorem WinMain_buffers_suffice (w : World) (t : list Event) :
  String.length (module_file_name w) <= 260 ->
  String.length (temp_path w) <= 261 ->
  String.length (stack_version w) < 32 ->
  WinMain w = (t, InvalidParameter) ->
  t = []
  /\ exists data occ url from_value before base,
       feed w = FeedRead (Some data)
       /\ In occ (occurrences BROWSER_DOWNLOAD_URL_KEY (cstr data))
       /\ quoted_value_from occ = Some (url, from_value)
       /\ url = before ++ String "/"%char base
       /\ mem_char "/"%char base = false
       /\ FILENAME_SIZE <= String.length base.
Proof.
  intros Hmod Htemp Hstack. unfold WinMain.
  destruct (GetAppDirectory (module_file_name w)) as [app_dir|] eqn:Hdir; [|discriminate].
  apply GetAppDirectory_length in Hdir.
  rewrite sprintf_s_fits by (rewrite version_path_length; unfold MAX_PATH_LEN; lia).
  cbn [lift bind].
  pose proof (ReadVersionFile_32_valid
                (version_file w (app_dir ++ String BACKSLASH VERSION_FILE)) (stack_version w))
    as Hvalid.
  destruct (ReadVersionFile (version_file w (app_dir ++ String BACKSLASH VERSION_FILE))
              (stack_version w) 32) as [[opened cur]| |] eqn:Hread;
    [|congruence|discriminate].
  apply ReadVersionFile_length in Hread; [|exact Hstack].
  destruct (update_block w cur) as [head r0] eqn:Hblock.
  destruct r0 as [[code|]| |]; cbn [bind]; try discriminate.
  - rewrite main_app_block_explicit. cbv zeta.
    assert (Hfit : Nat.ltb (String.length (app_dir ++ String BACKSLASH MAIN_EXE)) MAX_PATH_LEN
                   = true).
    { apply Nat.ltb_lt. rewrite exe_path_length. unfold MAX_PATH_LEN. lia. }
    rewrite Hfit. discriminate.
  - intros E; injection E as <-.
    apply update_block_overflow in Hblock as [-> Hcheck]; [|exact Htemp|exact Hread].
    split; [reflexivity|].
    unfold CheckForUpdates, fetchLatestRelease in Hcheck.
    destruct (feed w) as [| |[data|]]; try discriminate Hcheck.
    destruct (Nat.ltb 0 (String.length data)); [|discriminate Hcheck].
    rewrite parse_response_scan in Hcheck.
    destruct (scan_occurrences _ _) as [[b r]| |] eqn:Hscan; try discriminate Hcheck.
    apply scan_occurrences_invalid in Hscan
      as (occ & url & from_value & before & base & H).
    exists data, occ, url, from_value, before, base. split; [reflexivity|exact H].
Qed.

Lemma WinMain_buffers_suffice_witness :
  fst (WinMain long_name_world) = []
  /\ exists data occ url from_value before base,
       feed long_name_world = FeedRead (Some data)
       /\ In occ (occurrences BROWSER_DOWNLOAD_URL_KEY (cstr data))
       /\ quoted_value_from occ = Some (url, from_value)
       /\ url = before ++ String "/"%char base
       /\ mem_char "/"%char base = false
       /\ FILENAME_SIZE <= String.length base.
Proof.
  apply (WinMain_buffers_suffice long_name_world (fst (WinMain long_name_world))).
  - apply Nat.leb_le. reflexivity.
  - apply Nat.leb_le. reflexivity.
  - apply Nat.ltb_lt. reflexivity.
  - vm_compute. reflexivity.
Defined.

(** X18. The only marker file a run looks at is [version.txt] in the
    launcher's directory: two worlds that differ only in their files, and
    agree on that one, give the same run. *)
Theorem WinMain_reads_version_txt_only (w : World) (app_dir : string)
  (vf vf' : string -> option string) :
  GetAppDirectory (module_file_name w) = Some app_dir ->
  vf (app_dir ++ String BACKSLASH VERSION_FILE) = vf' (app_dir ++ String BACKSLASH VERSION_FILE) ->
  WinMain (with_version_file w vf) = WinMain (with_version_file w vf').
Proof.
  intros Hdir Hsame. unfold WinMain.
  cbn [module_file_name version_file stack_version with_version_file].
  rewrite Hdir.
  destruct (sprintf_s_cases MAX_PATH_LEN (app_dir ++ String BACKSLASH VERSION_FILE)) as [E|E];
    rewrite E; [|reflexivity].
  cbn [lift bind]. rewrite Hsame.
  destruct (ReadVersionFile (vf' (app_dir ++ String BACKSLASH VERSION_FILE))
              (stack_version w) 32) as [[b v]| |]; reflexivity.
Qed.

Lemma WinMain_reads_version_txt_only_witness :
  let w := update_world [Some "MZ"] all_start in
  let path := backslash "C:" (backslash "Apps" (backslash "Workspace" "version.txt")) in
  WinMain (with_version_file w (fun p => if String.eqb p path then Some "2.3.0" else None))
  = WinMain (with_version_file w (fun _ => Some "2.3.0")).
Proof.
  intros w path.
  apply (WinMain_reads_version_txt_only w
           (backslash "C:" (backslash "Apps" "Workspace"))).
  - vm_compute. reflexivity.
  - vm_compute. reflexivity.
Defined.

(** ** The progress window *)

Lemma update_path_window (w : World) (current_version : string) (head : list Event)
  (started : bool) :
  update_path w current_version head started ->
  In ShowWindow head ->
  exists message dl after,
    head = (MessageBox message "Update Available" :: CreateWindow :: ShowWindow
              :: dl ++ DestroyWindow :: after)%list
    /\ forallb is_download_event dl = true.
Proof.
  assert (Hdwt : forall release message path after,
             In ShowWindow (download_window_trace w release message path ++ after) ->
             ~ In ShowWindow after ->
             exists m dl after',
               (download_window_trace w release message path ++ after)%list
               = (MessageBox m "Update Available" :: CreateWindow :: ShowWindow
                    :: dl ++ DestroyWindow :: after')%list
               /\ forallb is_download_event dl = true).
  { intros release message path after Hin Hafter.
    unfold download_window_trace in *.
    pose proof (DownloadFile_events (download w) (download_url release) path (window w)) as Hev.
    destruct (window w).
    - exists message. eexists. exists after. split; [|exact Hev].
      cbn [app]. rewrite <- List.app_assoc. reflexivity.
    - exfalso. cbn [app] in Hin. rewrite app_nil_r in Hin.
      destruct Hin as [E|[E|Hin]]; try discriminate E.
      apply in_app_iff in Hin as [Hin|Hin]; [|contradiction].
      rewrite forallb_forall in Hev. specialize (Hev _ Hin). discriminate Hev. }
  intros H Hin. destruct H.
  - destruct Hin.
  - destruct Hin as [E|[]]. discriminate E.
  - apply Hdwt; [exact Hin|]. intros [E|[]]. discriminate E.
  - apply Hdwt; [exact Hin|]. intros [E|[E|[]]]; discriminate E.
  - apply Hdwt; [exact Hin|]. intros [E|[]]. discriminate E.
Qed.

(** X19. The progress window does not outlive the download: whenever a run
    shows it, the window is destroyed right after the download's file and
    progress events, before any error box is shown and before any process is
    created. *)
Theorem WinMain_window_destroyed_after_download (w : World) (t : list Event) (r : res Z) :
  WinMain w = (t, r) ->
  In ShowWindow t ->
  exists message dl after,
    t = (MessageBox message "Update Available" :: CreateWindow :: ShowWindow
           :: dl ++ DestroyWindow :: after)%list
    /\ forallb is_download_event dl = true.
Proof.
  intros HW Hin.
  assert (Hhead : forall cur head started tail,
             update_path w cur head started ->
             In ShowWindow head ->
             exists message dl after,
               (head ++ tail)%list
               = (MessageBox message "Update Available" :: CreateWindow :: ShowWindow
                    :: dl ++ DestroyWindow :: after)%list
               /\ forallb is_download_event dl = true).
  { intros cur head started tail Hpath Hh.
    destruct (update_path_window _ _ _ _ Hpath Hh) as (m & dl & after & -> & Hdl).
    exists m, dl, (after ++ tail)%list. split; [|exact Hdl].
    cbn [app]. rewrite <- List.app_assoc. reflexivity. }
  apply WinMain_follows_state_machine in HW.
  inversion HW as [Hdir|app_dir opened cur head Hdir Hlocal Hpath
                   |app_dir opened cur head exe_path created Hdir Hlocal Hpath Hfit
                   |app_dir head Hdir Hh];
    subst.
  - destruct Hin as [E|[]]. discriminate E.
  - destruct (Hhead _ _ _ [] Hpath Hin) as (x & y & z & H2 & H3).
    rewrite app_nil_r in H2. eauto 6.
  - apply in_app_iff in Hin as [Hin|[E|Hin]].
    + eapply Hhead; eauto.
    + discriminate E.
    + destruct created; [destruct Hin|destruct Hin as [E|[]]; discriminate E].
  - destruct Hh as [->|[(opened & cur & release & _ & _ & _ & ->)
                       |(opened & cur & _ & Hpath)]].
    + destruct Hin.
    + destruct Hin as [E|[]]. discriminate E.
    + destruct (Hhead _ _ _ [] Hpath Hin) as (x & y & z & H2 & H3).
      rewrite app_nil_r in H2. eauto 6.
Qed.

Lemma WinMain_window_destroyed_after_download_witness :
  let w := update_world [Some "MZ"; Some "payload"] only_main_app_starts in
  exists message dl after,
    fst (WinMain w)
    = (MessageBox message "Update Available" :: CreateWindow :: ShowWindow
         :: dl ++ DestroyWindow :: after)%list
    /\ forallb is_download_event dl = true.
Proof.
  intros w.
  apply (WinMain_window_destroyed_after_download w (fst (WinMain w)) (snd (WinMain w))).
  - vm_compute. reflexivity.
  - vm_compute. tauto.
Defined.
